(** * go-msgraph: the Graph client's call gate and the mail builder

    A shallow embedding of [GraphClient.go] (token refresh, the mutex-guarded
    GET path, construction by [NewGraphClient] and by JSON) and of the mail
    message builder, with the properties the specification states about them.

    Go strings are byte sequences: they are [string]s, one [ascii] per byte.
    Go's [error] values built by [fmt.Errorf] carry nothing but their message:
    an [error] is [option string], [None] being Go's [nil]. *)

From Stdlib Require Import ZArith String Ascii List Bool Lia DecimalString.
From stdpp Require Import base gmap strings list sorting.

Local Open Scope string_scope.
Local Open Scope Z_scope.

#[local] Set Warnings "-register-all".

(** ** Go values used throughout *)

Definition error : Type := option string.

Definition fmt_Errorf (msg : string) : error := Some msg.

(** A Go slice is [nil] or has a backing sequence, which may be empty; the two
    are told apart by [reflect.DeepEqual] and by [encoding/json]. *)
Inductive slice (A : Type) : Type :=
| SliceNil
| Slice (l : list A).
Arguments SliceNil {A}.
Arguments Slice {A} l.

Definition elems {A} (s : slice A) : list A :=
  match s with
  | SliceNil => []
  | Slice l => l
  end.

(** [append(s, x)] with one element: the result is never [nil]. *)
Definition append {A} (s : slice A) (x : A) : slice A :=
  Slice (elems s ++ [x]).

(** [s[i]] for a slice of strings; the callers guard the index by [len]. *)
Definition index (s : list string) (i : nat) : string := nth i s "".

(** [strconv.Itoa], and [%v] of an integer. *)
Definition Itoa (n : Z) : string := NilZero.string_of_int (Z.to_int n).

(** ** encoding/base64, [StdEncoding.EncodeToString] *)

Module Base64.

Definition encodeStd : string :=
  "ABCDEFGHIJKLMNOPQRSTUVWXYZabcdefghijklmnopqrstuvwxyz0123456789+/".

Definition padChar : ascii := "="%char.

Definition byte (c : ascii) : Z := Z.of_N (N_of_ascii c).

(** [enc.encode[v]] *)
Definition encode (v : Z) : ascii :=
  match String.get (Z.to_nat v) encodeStd with
  | Some c => c
  | None => padChar
  end.

(** The loop over whole 3-byte groups, then the remaining small block. *)
Fixpoint Encode (src : list ascii) : list ascii :=
  match src with
  | [] => []
  | [s0] =>
      let val := Z.shiftl (byte s0) 16 in
      [encode (Z.land (Z.shiftr val 18) 63);
       encode (Z.land (Z.shiftr val 12) 63);
       padChar; padChar]
  | [s0; s1] =>
      let val := Z.lor (Z.shiftl (byte s0) 16) (Z.shiftl (byte s1) 8) in
      [encode (Z.land (Z.shiftr val 18) 63);
       encode (Z.land (Z.shiftr val 12) 63);
       encode (Z.land (Z.shiftr val 6) 63);
       padChar]
  | s0 :: s1 :: s2 :: rest =>
      let val := Z.lor (Z.lor (Z.shiftl (byte s0) 16) (Z.shiftl (byte s1) 8))
                       (byte s2) in
      encode (Z.land (Z.shiftr val 18) 63)
      :: encode (Z.land (Z.shiftr val 12) 63)
      :: encode (Z.land (Z.shiftr val 6) 63)
      :: encode (Z.land val 63)
      :: Encode rest
  end.

Definition EncodeToString (src : string) : string :=
  string_of_list_ascii (Encode (list_ascii_of_string src)).

End Base64.

(** ** unicode/utf8, as far as [encoding/json] uses it *)

Module utf8.

Definition byte (c : ascii) : Z := Z.of_N (N_of_ascii c).

(** The first byte of a multi-byte encoding: the sequence's length and the
    range the second byte must lie in (the tables [first] and [acceptRanges]);
    [None] for a byte that starts no sequence. *)
Definition accept (b0 : Z) : option (nat * Z * Z) :=
  if b0 <? 194 then None
  else if b0 <=? 223 then Some (2%nat, 128, 191)
  else if b0 =? 224 then Some (3%nat, 160, 191)
  else if b0 <=? 236 then Some (3%nat, 128, 191)
  else if b0 =? 237 then Some (3%nat, 128, 159)
  else if b0 <=? 239 then Some (3%nat, 128, 191)
  else if b0 =? 240 then Some (4%nat, 144, 191)
  else if b0 <=? 243 then Some (4%nat, 128, 191)
  else if b0 =? 244 then Some (4%nat, 128, 143)
  else None.

(** A continuation byte, [locb <= b <= hicb]. *)
Definition cont (c : ascii) : bool := (128 <=? byte c) && (byte c <=? 191).

(** [DecodeRuneInString]: the width of the encoding [s] starts with, or [None]
    where Go returns [(RuneError, 1)] (or [(RuneError, 0)] for the empty
    string). *)
Definition runeSize (s : string) : option nat :=
  match s with
  | EmptyString => None
  | String c0 r =>
      if byte c0 <? 128 then Some 1%nat
      else
        match accept (byte c0), r with
        | Some (sz, lo, hi), String c1 r1 =>
            if (lo <=? byte c1) && (byte c1 <=? hi) then
              match sz, r1 with
              | 2%nat, _ => Some 2%nat
              | 3%nat, String c2 _ => if cont c2 then Some 3%nat else None
              | 4%nat, String c2 (String c3 _) =>
                  if cont c2 && cont c3 then Some 4%nat else None
              | _, _ => None
              end
            else None
        | _, _ => None
        end
  end.

(** [ValidString], read one byte at a time: [pending] bytes of the encoding
    in progress have been checked by [runeSize] and are still to be passed. *)
Fixpoint validFrom (pending : nat) (s : string) : bool :=
  match s with
  | EmptyString => true
  | String c r =>
      match pending with
      | S n => validFrom n r
      | O =>
          match runeSize s with
          | Some n => validFrom (n - 1) r
          | None => false
          end
      end
  end.

Definition ValidString (s : string) : bool := validFrom 0 s.

(** U+FFFD, the replacement character, in UTF-8. *)
Definition RuneError : string :=
  String (ascii_of_nat 239) (String (ascii_of_nat 191)
         (String (ascii_of_nat 189) EmptyString)).

End utf8.

(** ** encoding/json, on JSON values

    A JSON document is represented by the value it denotes; the text layer
    (the encoder's escaping and the decoder's scanner) is not unfolded.
    [Marshal] of a Go value is the JSON value [toJSON] builds, [Unmarshal] of a
    document into a Go value is [fromJSON] of the value it denotes. *)

Inductive JSON : Type :=
| JNull
| JBool (b : bool)
| JNumber (literal : string)
| JString (s : string)
| JArray (l : list JSON)
| JObject (members : list (string * JSON)).

Module json.

(** The string a Go string is encoded as: the encoder walks the bytes, keeps
    every well-formed encoding and writes the replacement character for each byte at which
    [DecodeRuneInString] reports an error. *)
Fixpoint coerceFrom (pending : nat) (s : string) : string :=
  match s with
  | EmptyString => EmptyString
  | String c r =>
      match pending with
      | S n => String c (coerceFrom n r)
      | O =>
          match utf8.runeSize s with
          | Some n => String c (coerceFrom (n - 1) r)
          | None => utf8.RuneError +:+ coerceFrom 0 r
          end
      end
  end.

Definition coerce (s : string) : string := coerceFrom 0 s.

(** The decoder records the first error and goes on ([saveError]). *)
Definition saveError (saved err : error) : error :=
  match saved with
  | Some _ => saved
  | None => err
  end.

Definition kind (j : JSON) : string :=
  match j with
  | JNull => "null"
  | JBool _ => "bool"
  | JNumber _ => "number"
  | JString _ => "string"
  | JArray _ => "array"
  | JObject _ => "object"
  end.

(** The decoder's [errorContext]: the struct it is decoding a field of, by
    [Struct.Name()] (empty for a struct type without a name), and the keys
    of the fields from the root down to that field. *)
Record errorContext : Type := mkContext {
  Struct : string;
  FieldStack : list string
}.

(** The error for a value of the wrong kind, with the message of
    [UnmarshalTypeError.Error]: inside a struct ([addErrorContext]) it names
    the struct and the path of the field, outside of any ([None], the nil
    context) it does not. *)
Definition UnmarshalTypeError (ctx : option errorContext) (j : JSON)
    (goType : string) : error :=
  match ctx with
  | Some c =>
      Some ("json: cannot unmarshal " +:+ kind j +:+ " into Go struct field "
            +:+ Struct c +:+ "." +:+ String.concat "." (FieldStack c)
            +:+ " of type " +:+ goType)
  | None =>
      Some ("json: cannot unmarshal " +:+ kind j +:+ " into Go value of type "
            +:+ goType)
  end.

(** [foldName]: the decoder matches an object key with a struct field
    exactly or, failing that, by the folded names. An ASCII letter folds to
    its upper case. Of the other runes, [unicode.SimpleFold] joins two with
    ASCII letters: U+017F, the long s (bytes C5 BF), folds to [S], and
    U+212A, the Kelvin sign (bytes E2 84 AA), folds to [K]. The fold of every
    other rune is a rune outside ASCII; it is not computed, the rune is kept
    as it is (a byte that starts no rune becomes the replacement character,
    as [utf8.DecodeRune] reads it): the field names of this package are
    ASCII, so such a key matches none of them either way. [pending] bytes of
    the rune in progress are still to be passed. *)
Definition upper (c : ascii) : ascii :=
  if (97 <=? utf8.byte c) && (utf8.byte c <=? 122)
  then ascii_of_N (N_of_ascii c - 32) else c.

Fixpoint foldFrom (pending : nat) (s : string) : string :=
  match s with
  | EmptyString => EmptyString
  | String c r =>
      match pending with
      | S n => String c (foldFrom n r)
      | O =>
          let other :=
            match utf8.runeSize s with
            | Some n => String c (foldFrom (n - 1) r)
            | None => utf8.RuneError +:+ foldFrom 0 r
            end in
          if utf8.byte c <? 128 then String (upper c) (foldFrom 0 r)
          else
            match r with
            | String c1 r1 =>
                if (utf8.byte c =? 197) && (utf8.byte c1 =? 191)
                then String "S" (foldFrom 0 r1)
                else
                  match r1 with
                  | String c2 r2 =>
                      if (utf8.byte c =? 226) && (utf8.byte c1 =? 132)
                         && (utf8.byte c2 =? 170)
                      then String "K" (foldFrom 0 r2)
                      else other
                  | EmptyString => other
                  end
            | EmptyString => other
            end
      end
  end.

Definition foldName (s : string) : string := foldFrom 0 s.

End json.

(** What [json.Marshal] and [json.Unmarshal] do at a Go type. *)
Class Marshaler (V : Type) : Type := toJSON : V -> JSON.
Class Unmarshaler (V : Type) : Type :=
  fromJSON : option json.errorContext -> JSON -> V -> V * error.

(** A struct field as the decoder sees it: the key it is known by and the
    decoding of a value into it. *)
Record fieldDecoder (V : Type) : Type := mkField {
  fieldKey : string;
  fieldSet : option json.errorContext -> JSON -> V -> V * error
}.
Arguments mkField {V} fieldKey fieldSet.
Arguments fieldKey {V} f.
Arguments fieldSet {V} f.

Definition findField {V} (fields : list (fieldDecoder V)) (key : string)
    : option (fieldDecoder V) :=
  match List.find (fun f => String.eqb (fieldKey f) key) fields with
  | Some f => Some f
  | None =>
      List.find (fun f => String.eqb (json.foldName (fieldKey f))
                                     (json.foldName key)) fields
  end.

(** The context for a field of a struct: the struct, and the path so far
    with the field's key added. *)
Definition fieldContext (name : string) (ctx : option json.errorContext)
    (key : string) : option json.errorContext :=
  Some (json.mkContext name
          (match ctx with
           | Some c => json.FieldStack c
           | None => []
           end ++ [key])%list).

(** The members of an object, in the order of the document; a key no field
    answers to is skipped. [name] is the struct's [Name()]. *)
Fixpoint decodeMembers {V} (name : string) (fields : list (fieldDecoder V))
    (ctx : option json.errorContext) (members : list (string * JSON)) (v : V)
    (saved : error) : V * error :=
  match members with
  | [] => (v, saved)
  | (key, j) :: rest =>
      match findField fields key with
      | Some f =>
          let '(v', err) := fieldSet f (fieldContext name ctx (fieldKey f)) j v in
          decodeMembers name fields ctx rest v' (json.saveError saved err)
      | None => decodeMembers name fields ctx rest v saved
      end
  end.

(** A struct type, by its [Name()] and its [String()]. *)
Definition decodeStruct {V} (name goType : string)
    (fields : list (fieldDecoder V)) (ctx : option json.errorContext)
    (j : JSON) (v : V) : V * error :=
  match j with
  | JNull => (v, None)
  | JObject members => decodeMembers name fields ctx members v None
  | _ => (v, json.UnmarshalTypeError ctx j goType)
  end.

(** The elements of an array: element [i] is decoded into the slice's element
    [i] where it has one, into a zero value past its length. *)
Fixpoint decodeElems {V} `{Unmarshaler V} (zero : V)
    (ctx : option json.errorContext) (l : list JSON) (old : list V)
    (saved : error) : list V * error :=
  match l with
  | [] => ([], saved)
  | j :: rest =>
      let '(x, err) := fromJSON ctx j (hd zero old) in
      let '(xs, saved') :=
        decodeElems zero ctx rest (tl old) (json.saveError saved err) in
      (x :: xs, saved')
  end.

Definition decodeSlice {V} `{Unmarshaler V} (goType : string) (zero : V)
    (ctx : option json.errorContext) (j : JSON) (s : slice V)
    : slice V * error :=
  match j with
  | JNull => (SliceNil, None)
  | JArray l =>
      let '(xs, err) := decodeElems zero ctx l (elems s) None in
      (Slice xs, err)
  | _ => (s, json.UnmarshalTypeError ctx j goType)
  end.

Definition encodeSlice {V} `{Marshaler V} (s : slice V) : JSON :=
  match s with
  | SliceNil => JNull
  | Slice l => JArray (List.map toJSON l)
  end.

#[export] Instance string_Marshaler : Marshaler string :=
  fun s => JString (json.coerce s).

#[export] Instance string_Unmarshaler : Unmarshaler string :=
  fun ctx j s =>
    match j with
    | JNull => (s, None)
    | JString x => (x, None)
    | _ => (s, json.UnmarshalTypeError ctx j "string")
    end.

(** ** The mail message builder *)

(** The declaration of [EmailAddress] is not among the sources; its two fields
    are the ones the builder sets by name. *)
Record EmailAddress : Type := mkEmailAddress {
  Name : string;
  Address : string
}.

Record Recipient : Type := mkRecipient {
  emailAddress : EmailAddress
}.

Record MsgBody : Type := mkMsgBody {
  ContentType : string;
  Content : string
}.

Record Attachment : Type := mkAttachment {
  DataType : string;
  AttName : string;
  AttContentType : string;
  ContentBytes : string
}.

Record Message : Type := mkMessage {
  MsgSubject : string;
  MsgBodyOf : MsgBody;
  ToRecipients : slice Recipient;
  CcRecipients : slice Recipient;
  BccRecipients : slice Recipient;
  MsgFrom : Recipient;
  Attachments : slice Attachment
}.

Record Mail : Type := mkMail {
  message : Message
}.

(** The zero values Go gives to fields a composite literal leaves out. *)
Definition zeroEmailAddress : EmailAddress := mkEmailAddress "" "".
Definition zeroRecipient : Recipient := mkRecipient zeroEmailAddress.
Definition zeroMsgBody : MsgBody := mkMsgBody "" "".
Definition zeroMessage : Message :=
  mkMessage "" zeroMsgBody SliceNil SliceNil SliceNil zeroRecipient SliceNil.
Definition zeroMail : Mail := mkMail zeroMessage.

(** [NewMail] leaves [ToRecipients] out of the literal: it stays [nil]. *)
Definition NewMail : Mail :=
  mkMail (mkMessage "" (mkMsgBody "Text" "") SliceNil (Slice []) (Slice [])
                    (mkRecipient zeroEmailAddress) (Slice [])).

Definition MakeMail : Mail :=
  mkMail (mkMessage "" (mkMsgBody "Text" "") (Slice []) (Slice []) (Slice [])
                    (mkRecipient zeroEmailAddress) (Slice [])).

(** Assignments to one field of a [Message]. *)
Definition set_Subject (s : string) (g : Message) : Message :=
  mkMessage s (MsgBodyOf g) (ToRecipients g) (CcRecipients g)
            (BccRecipients g) (MsgFrom g) (Attachments g).

Definition set_Body (b : MsgBody) (g : Message) : Message :=
  mkMessage (MsgSubject g) b (ToRecipients g) (CcRecipients g)
            (BccRecipients g) (MsgFrom g) (Attachments g).

Definition set_ToRecipients (r : slice Recipient) (g : Message) : Message :=
  mkMessage (MsgSubject g) (MsgBodyOf g) r (CcRecipients g)
            (BccRecipients g) (MsgFrom g) (Attachments g).

Definition set_CcRecipients (r : slice Recipient) (g : Message) : Message :=
  mkMessage (MsgSubject g) (MsgBodyOf g) (ToRecipients g) r
            (BccRecipients g) (MsgFrom g) (Attachments g).

Definition set_BccRecipients (r : slice Recipient) (g : Message) : Message :=
  mkMessage (MsgSubject g) (MsgBodyOf g) (ToRecipients g)
            (CcRecipients g) r (MsgFrom g) (Attachments g).

Definition set_From (r : Recipient) (g : Message) : Message :=
  mkMessage (MsgSubject g) (MsgBodyOf g) (ToRecipients g)
            (CcRecipients g) (BccRecipients g) r (Attachments g).

Definition set_Attachments (a : slice Attachment) (g : Message) : Message :=
  mkMessage (MsgSubject g) (MsgBodyOf g) (ToRecipients g)
            (CcRecipients g) (BccRecipients g) (MsgFrom g) a.

(** The builder's methods have a pointer receiver and update the mail in
    place: each takes the mail before the call and returns the mail after it,
    with the returned [error] where the method has one. *)

Definition Subject (subject : string) (m : Mail) : Mail :=
  mkMail (set_Subject subject (message m)).

Definition AddRecipient (recipient : list string) (m : Mail) : Mail * error :=
  match length recipient with
  | 1%nat =>
      (mkMail (set_ToRecipients
                 (append (ToRecipients (message m))
                    (mkRecipient (mkEmailAddress "" (index recipient 0))))
                 (message m)),
       None)
  | 2%nat =>
      (mkMail (set_ToRecipients
                 (append (ToRecipients (message m))
                    (mkRecipient (mkEmailAddress (index recipient 1)
                                                 (index recipient 0))))
                 (message m)),
       None)
  | _ => (m, fmt_Errorf "add recipient only accepts 1-2 arguments")
  end.

Definition CCRecipient (recipient : list string) (m : Mail) : Mail * error :=
  match length recipient with
  | 1%nat =>
      (mkMail (set_CcRecipients
                 (append (CcRecipients (message m))
                    (mkRecipient (mkEmailAddress "" (index recipient 0))))
                 (message m)),
       None)
  | 2%nat =>
      (mkMail (set_CcRecipients
                 (append (CcRecipients (message m))
                    (mkRecipient (mkEmailAddress (index recipient 1)
                                                 (index recipient 0))))
                 (message m)),
       None)
  | _ => (m, fmt_Errorf "CCRecipient() only accepts 1-2 arguments")
  end.

Definition BCCRecipient (recipient : list string) (m : Mail) : Mail * error :=
  match length recipient with
  | 1%nat =>
      (mkMail (set_BccRecipients
                 (append (BccRecipients (message m))
                    (mkRecipient (mkEmailAddress "" (index recipient 0))))
                 (message m)),
       None)
  | 2%nat =>
      (mkMail (set_BccRecipients
                 (append (BccRecipients (message m))
                    (mkRecipient (mkEmailAddress (index recipient 1)
                                                 (index recipient 0))))
                 (message m)),
       None)
  | _ => (m, fmt_Errorf "BCCRecipient() only accepts 1-2 arguments")
  end.

Definition From (from : list string) (m : Mail) : Mail * error :=
  match length from with
  | 1%nat =>
      (mkMail (set_From (mkRecipient (mkEmailAddress "" (index from 0)))
                        (message m)),
       None)
  | 2%nat =>
      (mkMail (set_From (mkRecipient (mkEmailAddress (index from 1)
                                                     (index from 0)))
                        (message m)),
       None)
  | _ => (m, fmt_Errorf "From() only accepts 1-2 arguments")
  end.

Definition Body (contentType content : string) (m : Mail) : Mail :=
  mkMail (set_Body (mkMsgBody contentType content) (message m)).

Definition AddFileAttachment (attachmentName contentType content : string)
    (m : Mail) : Mail :=
  let attachment :=
    mkAttachment "#microsoft.graph.fileAttachment" attachmentName contentType
                 (Base64.EncodeToString content) in
  mkMail (set_Attachments (append (Attachments (message m)) attachment)
                          (message m)).

(** *** The mail's JSON form, by the struct tags *)

(** A field of type [F] of a struct [V] under a key, for the decoder. *)
Definition field {V F} `{Unmarshaler F} (key : string) (get : V -> F)
    (set : F -> V -> V) : fieldDecoder V :=
  mkField key (fun ctx j v =>
                 let '(x, err) := fromJSON ctx j (get v) in (set x v, err)).

(** Modelled from the spec: the declaration of [EmailAddress], with its struct
    tags, is not among the sources; the resource models mirror the remote
    API's JSON schema, where an address is an object with the members [name]
    and [address]. *)
#[export] Instance EmailAddress_Marshaler : Marshaler EmailAddress :=
  fun e => JObject [("name", toJSON (Name e)); ("address", toJSON (Address e))].

#[export] Instance EmailAddress_Unmarshaler : Unmarshaler EmailAddress :=
  decodeStruct "EmailAddress" "msgraph.EmailAddress"
    [field "name" Name (fun x e => mkEmailAddress x (Address e));
     field "address" Address (fun x e => mkEmailAddress (Name e) x)].

#[export] Instance Recipient_Marshaler : Marshaler Recipient :=
  fun r => JObject [("emailAddress", toJSON (emailAddress r))].

#[export] Instance Recipient_Unmarshaler : Unmarshaler Recipient :=
  decodeStruct "Recipient" "msgraph.Recipient"
    [field "emailAddress" emailAddress (fun x _ => mkRecipient x)].

#[export] Instance MsgBody_Marshaler : Marshaler MsgBody :=
  fun b => JObject [("contentType", toJSON (ContentType b));
                    ("content", toJSON (Content b))].

#[export] Instance MsgBody_Unmarshaler : Unmarshaler MsgBody :=
  decodeStruct "MsgBody" "msgraph.MsgBody"
    [field "contentType" ContentType (fun x b => mkMsgBody x (Content b));
     field "content" Content (fun x b => mkMsgBody (ContentType b) x)].

#[export] Instance Attachment_Marshaler : Marshaler Attachment :=
  fun a => JObject [("@odata.type", toJSON (DataType a));
                    ("name", toJSON (AttName a));
                    ("contentType", toJSON (AttContentType a));
                    ("contentBytes", toJSON (ContentBytes a))].

#[export] Instance Attachment_Unmarshaler : Unmarshaler Attachment :=
  decodeStruct "Attachment" "msgraph.Attachment"
    [field "@odata.type" DataType
       (fun x a => mkAttachment x (AttName a) (AttContentType a)
                                (ContentBytes a));
     field "name" AttName
       (fun x a => mkAttachment (DataType a) x (AttContentType a)
                                (ContentBytes a));
     field "contentType" AttContentType
       (fun x a => mkAttachment (DataType a) (AttName a) x (ContentBytes a));
     field "contentBytes" ContentBytes
       (fun x a => mkAttachment (DataType a) (AttName a) (AttContentType a) x)].

Definition zeroAttachment : Attachment := mkAttachment "" "" "" "".

#[export] Instance Recipients_Marshaler : Marshaler (slice Recipient) :=
  encodeSlice.

#[export] Instance Recipients_Unmarshaler : Unmarshaler (slice Recipient) :=
  decodeSlice "[]msgraph.Recipient" zeroRecipient.

#[export] Instance Attachments_Marshaler : Marshaler (slice Attachment) :=
  encodeSlice.

#[export] Instance Attachments_Unmarshaler : Unmarshaler (slice Attachment) :=
  decodeSlice "[]msgraph.Attachment" zeroAttachment.

#[export] Instance Message_Marshaler : Marshaler Message :=
  fun g => JObject [("subject", toJSON (MsgSubject g));
                    ("body", toJSON (MsgBodyOf g));
                    ("toRecipients", toJSON (ToRecipients g));
                    ("ccRecipients", toJSON (CcRecipients g));
                    ("bccRecipients", toJSON (BccRecipients g));
                    ("from", toJSON (MsgFrom g));
                    ("attachments", toJSON (Attachments g))].

#[export] Instance Message_Unmarshaler : Unmarshaler Message :=
  decodeStruct "Message" "msgraph.Message"
    [field "subject" MsgSubject set_Subject;
     field "body" MsgBodyOf set_Body;
     field "toRecipients" ToRecipients set_ToRecipients;
     field "ccRecipients" CcRecipients set_CcRecipients;
     field "bccRecipients" BccRecipients set_BccRecipients;
     field "from" MsgFrom set_From;
     field "attachments" Attachments set_Attachments].

#[export] Instance Mail_Marshaler : Marshaler Mail :=
  fun m => JObject [("message", toJSON (message m))].

#[export] Instance Mail_Unmarshaler : Unmarshaler Mail :=
  decodeStruct "Mail" "msgraph.Mail"
    [field "message" message (fun x _ => mkMail x)].

(** [json.Marshal(m)] followed by [json.Unmarshal] into a fresh [Mail]. *)
Definition roundTrip (m : Mail) : Mail * error :=
  fromJSON None (toJSON m) zeroMail.

(** ** net/url and net/http, as far as the client uses them *)

(** The result of a Go function returning [(value, error)]. *)
Inductive result (A : Type) : Type :=
| Ok (a : A)
| Err (msg : string).
Arguments Ok {A} a.
Arguments Err {A} msg.

(** [url.URL], the fields the client reads or assigns. *)
Record URL : Type := mkURL {
  Scheme : string;
  Host : string;
  Path : string;
  RawQuery : string
}.

Definition set_Path (p : string) (u : URL) : URL :=
  mkURL (Scheme u) (Host u) p (RawQuery u).

Definition set_RawQuery (q : string) (u : URL) : URL :=
  mkURL (Scheme u) (Host u) (Path u) q.

Module url.

(** [shouldEscape(c, encodeQueryComponent)]: letters, digits and [-_.~] are
    kept, every other byte is escaped. *)
Definition shouldEscape (c : ascii) : bool :=
  let b := utf8.byte c in
  negb (((97 <=? b) && (b <=? 122)) || ((65 <=? b) && (b <=? 90))
        || ((48 <=? b) && (b <=? 57))
        || (b =? 45) || (b =? 95) || (b =? 46) || (b =? 126)).

Definition upperhex : string := "0123456789ABCDEF".

Definition hexDigit (v : Z) : ascii :=
  match String.get (Z.to_nat v) upperhex with
  | Some c => c
  | None => "0"%char
  end.

Fixpoint QueryEscape (s : string) : string :=
  match s with
  | EmptyString => EmptyString
  | String c r =>
      if shouldEscape c then
        if (utf8.byte c =? 32) then String "+"%char (QueryEscape r)
        else String "%"%char
               (String (hexDigit (Z.shiftr (utf8.byte c) 4))
                  (String (hexDigit (Z.land (utf8.byte c) 15))
                     (QueryEscape r)))
      else String c (QueryEscape r)
  end.

(** Byte-wise order of strings, by which [Encode] sorts the keys. *)
Definition string_le (x y : string) : Prop := String.leb x y = true.

#[global] Instance string_le_dec x y : Decision (string_le x y).
Proof. unfold string_le. apply _. Defined.

End url.

(** [url.Values], a [map[string][]string]. *)
Abbreviation Values := (gmap string (list string)).

Definition Values_Add (key value : string) (v : Values) : Values :=
  <[key := (default [] (v !! key) ++ [value])%list]> v.

Definition Values_Encode (v : Values) : string :=
  let keys := merge_sort url.string_le (fst <$> map_to_list v) in
  foldl (fun buf k =>
           foldl (fun buf x =>
                    (if decide (buf = "") then "" else buf +:+ "&")
                    +:+ url.QueryEscape k +:+ "=" +:+ url.QueryEscape x)
                 buf (default [] (v !! k)))
        "" keys.

(** [http.Header]; the keys the client adds are in canonical form already. *)
Abbreviation Header := (gmap string (list string)).

Record Request : Type := mkRequest {
  Method : string;
  ReqURL : URL;
  ReqHeader : Header;
  ReqBody : option string
}.

Definition Header_Add (key value : string) (req : Request) : Request :=
  mkRequest (Method req) (ReqURL req)
            (<[key := (default [] (ReqHeader req !! key) ++ [value])%list]>
               (ReqHeader req))
            (ReqBody req).

Definition set_URL_RawQuery (q : string) (req : Request) : Request :=
  mkRequest (Method req) (set_RawQuery q (ReqURL req)) (ReqHeader req)
            (ReqBody req).

(** A response as the client consumes it: the status code, and what
    [ioutil.ReadAll] returns for its body (the bytes read, and the read error
    if the body broke off). *)
Record Response : Type := mkResponse {
  StatusCode : Z;
  ReadAllBody : string;
  ReadAllErr : error
}.

(** What [httpClient.Do] returns: a transport error (the ten-second timeout
    among them) or a response. *)
Inductive DoResult : Type :=
| DoErr (err : string)
| DoResp (resp : Response).

(** ** The token *)

(** Modelled from the spec: the declaration of [Token] and its methods
    [WantsToBeRefreshed] and [GetAccessToken] are not among the sources. A
    credential holds an opaque bearer value and an expiry instant; it is
    attached to a request as the authorization header, and it is treated as
    refreshable once the current time reaches the expiry minus a fixed safety
    margin. Instants are counted from Go's zero [time.Time]. *)
Record Token : Type := mkToken {
  AccessToken : string;
  ExpiresOn : Z
}.

Definition zeroToken : Token := mkToken "" 0.

Definition GetAccessToken (t : Token) : string := AccessToken t.

(** ** What the package takes from outside the given sources

    The package's constants, the safety margin of the token, and the pieces of
    Go's standard library whose results the client only passes on. *)
Class Platform : Type := {
  APIVersion : string;
  BaseURL : string;
  LoginBaseURL : string;
  MaxPageSize : Z;
  margin : Z;
  url_Parse : string -> result URL;
  url_ParseRequestURI : string -> result URL;
  URL_String : URL -> string;
  json_scan : string -> result JSON;
  Token_Unmarshaler :: Unmarshaler Token
}.

(** Modelled from the spec: see [Token]. [now] is what [time.Now()] returns
    inside the method. *)
Definition WantsToBeRefreshed `{Platform} (t : Token) (now : Z) : bool :=
  ExpiresOn t - margin <=? now.

(** [json.Unmarshal(data, &v)]: a document that does not scan leaves [v]
    untouched. *)
Definition json_Unmarshal `{Platform} {V} `{Unmarshaler V} (data : string)
    (v : V) : V * error :=
  match json_scan data with
  | Err msg => (v, Some msg)
  | Ok j => fromJSON None j v
  end.

(** [http.NewRequest(method, url, body)] for the methods the client uses. *)
Definition http_NewRequest `{Platform} (method urlStr : string)
    (body : option string) : result Request :=
  match url_Parse urlStr with
  | Err msg => Err msg
  | Ok u => Ok (mkRequest method u ∅ body)
  end.

(** ** The client *)

Record GraphClient : Type := mkGraphClient {
  TenantID : string;
  ApplicationID : string;
  ClientSecret : string;
  token : Token
}.

(** The three identity fields of the client. *)
Inductive Field : Type :=
| fTenantID
| fApplicationID
| fClientSecret.

Definition getField (f : Field) (g : GraphClient) : string :=
  match f with
  | fTenantID => TenantID g
  | fApplicationID => ApplicationID g
  | fClientSecret => ClientSecret g
  end.

Definition setField (f : Field) (s : string) (g : GraphClient) : GraphClient :=
  match f with
  | fTenantID => mkGraphClient s (ApplicationID g) (ClientSecret g) (token g)
  | fApplicationID => mkGraphClient (TenantID g) s (ClientSecret g) (token g)
  | fClientSecret => mkGraphClient (TenantID g) (ApplicationID g) s (token g)
  end.

Definition setToken (t : Token) (g : GraphClient) : GraphClient :=
  mkGraphClient (TenantID g) (ApplicationID g) (ClientSecret g) t.

(** What a method does to the world outside its own variables: the mutex
    [g.apiCall], the fields of [*g], the clock and the network. [Enter] and
    [Leave] mark the start and the end of an execution of refreshToken and
    have no other effect. *)
Inductive Eff : Type -> Type :=
| Lock : Eff unit
| Unlock : Eff unit
| Load (f : Field) : Eff string
| Store (f : Field) (s : string) : Eff unit
| LoadToken : Eff Token
| StoreToken (t : Token) : Eff unit
| Now : Eff Z
| Do (req : Request) : Eff DoResult
| Enter : Eff unit
| Leave : Eff unit.

Inductive Prog (A : Type) : Type :=
| Ret (a : A)
| Vis {X : Type} (e : Eff X) (k : X -> Prog A).
Arguments Ret {A} a.
Arguments Vis {A X} e k.

Fixpoint bind {A B} (m : Prog A) (f : A -> Prog B) : Prog B :=
  match m with
  | Ret a => f a
  | Vis e k => Vis e (fun x => bind (k x) f)
  end.

Definition trigger {X} (e : Eff X) : Prog X := Vis e Ret.

#[export] Instance Prog_ret : MRet Prog := @Ret.
#[export] Instance Prog_bind : MBind Prog := fun A B f m => bind m f.

Section Client.
Context `{Platform}.

(** performRequest performs a pre-prepared http.Request and does the proper
    error-handling for it. *)
Definition performRequest {V} `{Unmarshaler V} (req : Request) (v : V)
    : Prog (V * error) :=
  r ← trigger (Do req);
  match r with
  | DoErr err =>
      mret (v, fmt_Errorf ("HTTP response error: " +:+ err
                           +:+ " of http.Request: "
                           +:+ URL_String (ReqURL req)))
  | DoResp resp =>
      let body := ReadAllBody resp in
      let err := ReadAllErr resp in
      if (StatusCode resp <? 200) || (StatusCode resp >? 299) then
        mret (v, fmt_Errorf ("StatusCode is not OK: "
                             +:+ Itoa (StatusCode resp)
                             +:+ ". Body: " +:+ body +:+ " "))
      else
        match err with
        | Some msg =>
            mret (v, fmt_Errorf ("HTTP response read error: " +:+ msg
                                 +:+ " of http.Request: "
                                 +:+ URL_String (ReqURL req)))
        | None => mret (json_Unmarshal body v)
        end
  end.

(** The body of refreshToken, between its entry and its return. *)
Definition refreshToken_body : Prog error :=
  tenantID ← trigger (Load fTenantID);
  if decide (tenantID = "") then mret (fmt_Errorf "Tenant ID is empty")
  else
    tenantID ← trigger (Load fTenantID);
    let resource := "/" +:+ tenantID +:+ "/oauth2/token" in
    let data := ∅ in
    let data := Values_Add "grant_type" "client_credentials" data in
    applicationID ← trigger (Load fApplicationID);
    let data := Values_Add "client_id" applicationID data in
    clientSecret ← trigger (Load fClientSecret);
    let data := Values_Add "client_secret" clientSecret data in
    let data := Values_Add "resource" BaseURL data in
    match url_ParseRequestURI LoginBaseURL with
    | Err msg => mret (fmt_Errorf ("Unable to parse URI: " +:+ msg))
    | Ok u =>
        let u := set_Path resource u in
        match http_NewRequest "POST" (URL_String u)
                              (Some (Values_Encode data)) with
        | Err msg => mret (fmt_Errorf ("HTTP Request Error: " +:+ msg))
        | Ok req =>
            let req :=
              Header_Add "Content-Type" "application/x-www-form-urlencoded"
                         req in
            let req :=
              Header_Add "Content-Length"
                (Itoa (Z.of_nat (String.length (Values_Encode data)))) req in
            '(newToken, err) ← performRequest req zeroToken;
            match err with
            | Some msg =>
                mret (fmt_Errorf ("Error on getting msgraph Token: " +:+ msg))
            | None =>
                trigger (StoreToken newToken);;
                mret None
            end
        end
    end.

(** refreshToken refreshes the current Token. *)
Definition refreshToken : Prog error :=
  trigger Enter;;
  err ← refreshToken_body;
  trigger Leave;;
  mret err.

(** makeGETAPICall performs an API-Call to the msgraph API; [getParams] is
    [None] for a nil map. The deferred unlock runs when the body returns. *)
Definition makeGETAPICall {V} `{Unmarshaler V} (apicall : string)
    (getParams : option Values) (v : V) : Prog (V * error) :=
  trigger Lock;;
  r ← (tok ← trigger LoadToken;
       now ← trigger Now;
       err ← (if WantsToBeRefreshed tok now then refreshToken
              else mret None);
       match err with
       | Some msg => mret (v, Some msg)
       | None =>
           match url_ParseRequestURI BaseURL with
           | Err msg =>
               mret (v, fmt_Errorf ("Unable to parse URI " +:+ BaseURL
                                    +:+ ": " +:+ msg))
           | Ok reqURL =>
               let reqURL := set_Path ("/" +:+ APIVersion +:+ apicall) reqURL in
               match http_NewRequest "GET" (URL_String reqURL) None with
               | Err msg => mret (v, fmt_Errorf ("HTTP request error: " +:+ msg))
               | Ok req =>
                   let req := Header_Add "Content-Type" "application/json" req in
                   tok ← trigger LoadToken;
                   let req :=
                     Header_Add "Authorization" (GetAccessToken tok) req in
                   let getParams :=
                     match getParams with
                     | None => ∅
                     | Some params => params
                     end in
                   let getParams :=
                     Values_Add "$top" (Itoa MaxPageSize) getParams in
                   let req := set_URL_RawQuery (Values_Encode getParams) req in
                   performRequest req v
               end
           end
       end);
  trigger Unlock;;
  mret r.

(** NewGraphClient: the client the composite literal builds, and what the
    function then does on it. *)
Definition NewGraphClient_literal (tenantID applicationID clientSecret : string)
    : GraphClient :=
  mkGraphClient tenantID applicationID clientSecret zeroToken.

Definition NewGraphClient : Prog error :=
  trigger Lock;;
  err ← refreshToken;
  trigger Unlock;;
  mret err.

(** The anonymous struct [UnmarshalJSON] decodes into; its fields have no tags
    and are known by their names. *)
Record tmpConfig : Type := mkTmp {
  tmpTenantID : string;
  tmpApplicationID : string;
  tmpClientSecret : string
}.

#[export] Instance tmpConfig_Unmarshaler : Unmarshaler tmpConfig :=
  decodeStruct ""
    "struct { TenantID string; ApplicationID string; ClientSecret string }"
    [field "TenantID" tmpTenantID
       (fun x t => mkTmp x (tmpApplicationID t) (tmpClientSecret t));
     field "ApplicationID" tmpApplicationID
       (fun x t => mkTmp (tmpTenantID t) x (tmpClientSecret t));
     field "ClientSecret" tmpClientSecret
       (fun x t => mkTmp (tmpTenantID t) (tmpApplicationID t) x)].

(** UnmarshalJSON implements the json unmarshal to be used by the
    json-library. *)
Definition UnmarshalJSON (data : string) : Prog error :=
  let '(tmp, err) := json_Unmarshal data (mkTmp "" "" "") in
  match err with
  | Some msg => mret (Some msg)
  | None =>
      trigger (Store fTenantID (tmpTenantID tmp));;
      tenantID ← trigger (Load fTenantID);
      if decide (tenantID = "") then mret (fmt_Errorf "TenantID is empty")
      else
        trigger (Store fApplicationID (tmpApplicationID tmp));;
        applicationID ← trigger (Load fApplicationID);
        if decide (applicationID = "")
        then mret (fmt_Errorf "ApplicationID is empty")
        else
          trigger (Store fClientSecret (tmpClientSecret tmp));;
          clientSecret ← trigger (Load fClientSecret);
          if decide (clientSecret = "")
          then mret (fmt_Errorf "ClientSecret is empty")
          else
            err ← refreshToken;
            match err with
            | Some msg => mret (fmt_Errorf ("Can't get Token: " +:+ msg))
            | None => mret None
            end
  end.

End Client.

(** ** Running a method

    One call, run to its end by one goroutine: the world holds the client's
    fields, the state of its mutex and the trace of what was done, each event
    with the state of the mutex when it happened. *)

Inductive Event : Type :=
| EvLock
| EvUnlock
| EvLoad (f : Field)
| EvStore (f : Field) (s : string)
| EvLoadToken
| EvStoreToken (t : Token)
| EvNow
| EvDo (req : Request)
| EvEnter
| EvLeave.

Definition eventOf {X} (e : Eff X) : Event :=
  match e with
  | Lock => EvLock
  | Unlock => EvUnlock
  | Load f => EvLoad f
  | Store f s => EvStore f s
  | LoadToken => EvLoadToken
  | StoreToken t => EvStoreToken t
  | Now => EvNow
  | Do req => EvDo req
  | Enter => EvEnter
  | Leave => EvLeave
  end.

Record World : Type := mkWorld {
  client : GraphClient;
  apiCall : bool;
  trace : list (bool * Event)
}.

(** The clock and the remote side during the call. *)
Record Env : Type := mkEnv {
  clock : Z;
  network : Request -> DoResult
}.

Definition set_client (g : GraphClient) (w : World) : World :=
  mkWorld g (apiCall w) (trace w).

Definition set_apiCall (b : bool) (w : World) : World :=
  mkWorld (client w) b (trace w).

Definition record {X} (e : Eff X) (w : World) : World :=
  mkWorld (client w) (apiCall w) (trace w ++ [(apiCall w, eventOf e)])%list.

(** One effect. [Lock] on the locked mutex does not return; [Unlock] of the
    unlocked mutex is a fatal error of the Go runtime: both give [None]. *)
Definition perform {X} (env : Env) (e : Eff X) (w : World)
    : option (X * World) :=
  let w' := record e w in
  match e in Eff X return option (X * World) with
  | Lock => if apiCall w then None else Some (tt, set_apiCall true w')
  | Unlock => if apiCall w then Some (tt, set_apiCall false w') else None
  | Load f => Some (getField f (client w), w')
  | Store f s => Some (tt, set_client (setField f s (client w)) w')
  | LoadToken => Some (token (client w), w')
  | StoreToken t => Some (tt, set_client (setToken t (client w)) w')
  | Now => Some (clock env, w')
  | Do req => Some (network env req, w')
  | Enter => Some (tt, w')
  | Leave => Some (tt, w')
  end.

Fixpoint run {A} (env : Env) (p : Prog A) (w : World) : option (A * World) :=
  match p with
  | Ret a => Some (a, w)
  | Vis e k =>
      match perform env e w with
      | Some (x, w') => run env (k x) w'
      | None => None
      end
  end.

(** A client nobody is calling. *)
Definition idle (g : GraphClient) : World := mkWorld g false [].

(** [NewGraphClient(tenantID, applicationID, clientSecret)]: the client and
    the error it returns, and the trace of the call. *)
Definition run_NewGraphClient `{Platform} (env : Env)
    (tenantID applicationID clientSecret : string) : option (error * World) :=
  run env NewGraphClient
      (idle (NewGraphClient_literal tenantID applicationID clientSecret)).

(** The requests sent during a trace, in order. *)
Definition requests (tr : list (bool * Event)) : list Request :=
  omap (fun ev => match snd ev with EvDo req => Some req | _ => None end) tr.

Definition entersRefresh (ev : bool * Event) : bool :=
  match snd ev with
  | EvEnter => true
  | _ => false
  end.

Definition leavesRefresh (ev : bool * Event) : bool :=
  match snd ev with
  | EvLeave => true
  | _ => false
  end.

(** The number of executions of refreshToken a trace starts. *)
Definition refreshes (tr : list (bool * Event)) : nat :=
  length (List.filter entersRefresh tr).

(** An event that reads or writes [g.token]. *)
Definition touchesToken (ev : Event) : bool :=
  match ev with
  | EvLoadToken | EvStoreToken _ => true
  | _ => false
  end.

(** The configuration errors: a required identity field is empty. *)
Definition isConfigurationError (err : error) : bool :=
  match err with
  | Some msg =>
      String.eqb msg "Tenant ID is empty" || String.eqb msg "TenantID is empty"
      || String.eqb msg "ApplicationID is empty"
      || String.eqb msg "ClientSecret is empty"
  | None => false
  end.

(** ** Goroutines sharing one client

    Each goroutine runs a method; a step performs the next effect of one of
    them on the shared world. A goroutine whose next effect is [Lock] cannot
    step while the mutex is held. *)

Abbreviation Pool := (list (Prog error)).

Definition cstep (env : Env) (i : nat) (c : World * Pool)
    : option (World * Pool) :=
  match snd c !! i with
  | Some (Vis e k) =>
      match perform env e (fst c) with
      | Some (x, w') => Some (w', <[i := k x]> (snd c))
      | None => None
      end
  | _ => None
  end.

Fixpoint schedule (env : Env) (sched : list nat) (c : World * Pool)
    : option (World * Pool) :=
  match sched with
  | [] => Some c
  | i :: rest =>
      match cstep env i c with
      | Some c' => schedule env rest c'
      | None => None
      end
  end.

(** The executions of refreshToken in flight at the end of a trace, counted
    from [n], and the most that were in flight at once. *)
Fixpoint inflight (n : nat) (tr : list (bool * Event)) : nat :=
  match tr with
  | [] => n
  | ev :: rest =>
      if entersRefresh ev then inflight (S n) rest
      else if leavesRefresh ev then inflight (pred n) rest
      else inflight n rest
  end.

Fixpoint peak (n : nat) (tr : list (bool * Event)) : nat :=
  match tr with
  | [] => n
  | ev :: rest =>
      if entersRefresh ev then Nat.max n (peak (S n) rest)
      else if leavesRefresh ev then Nat.max n (peak (pred n) rest)
      else peak n rest
  end.

(** ** A small platform to run the definitions on

    The constants of the Graph API, a safety margin of ten units, URLs printed
    and read back without escaping, and a scanner that knows three
    documents. *)
Module Toy.

Definition String_of (u : URL) : string :=
  Scheme u +:+ "://" +:+ Host u +:+ Path u
  +:+ (if decide (RawQuery u = "") then "" else "?" +:+ RawQuery u).

Definition cut (sep : string) (s : string) : option (string * string) :=
  match String.index 0 sep s with
  | Some n =>
      Some (substring 0 n s,
            substring (n + String.length sep)
                      (String.length s - n - String.length sep) s)
  | None => None
  end.

Definition Parse (s : string) : result URL :=
  match cut "://" s with
  | None => Err "missing protocol scheme"
  | Some (scheme, rest) =>
      let '(hostpath, query) :=
        match cut "?" rest with
        | Some (hp, q) => (hp, q)
        | None => (rest, "")
        end in
      match String.index 0 "/" hostpath with
      | Some n =>
          Ok (mkURL scheme (substring 0 n hostpath)
                    (substring n (String.length hostpath - n) hostpath) query)
      | None => Ok (mkURL scheme hostpath "" query)
      end
  end.

(** A member [key: value] of an object with a string value, in JSON text;
    the quotation mark is byte 34. *)
Definition quoted (s : string) : string :=
  String (ascii_of_nat 34) s +:+ String (ascii_of_nat 34) "".

Definition member (key value : string) : string :=
  quoted key +:+ ":" +:+ quoted value.

Definition tokenDocument : string :=
  "{" +:+ member "access_token" "Bearer abc" +:+ ","
  +:+ quoted "expires_on" +:+ ":1000}".

Definition emptyDocument : string := "{}".

Definition configDocument : string :=
  "{" +:+ member "TenantID" "tenant" +:+ ","
  +:+ member "ApplicationID" "app" +:+ ","
  +:+ member "ClientSecret" "secret" +:+ "}".

Definition scan (data : string) : result JSON :=
  if decide (data = emptyDocument) then Ok (JObject [])
  else if decide (data = tokenDocument)
  then Ok (JObject [("access_token", JString "Bearer abc");
                    ("expires_on", JNumber "1000")])
  else if decide (data = configDocument)
  then Ok (JObject [("TenantID", JString "tenant");
                    ("ApplicationID", JString "app");
                    ("ClientSecret", JString "secret")])
  else Err "invalid character".

Definition decodeInstant : Unmarshaler Z :=
  fun ctx j z =>
    match j with
    | JNull => (z, None)
    | JNumber lit =>
        match NilZero.int_of_string lit with
        | Some i => (Z.of_int i, None)
        | None => (z, json.UnmarshalTypeError ctx j "int64")
        end
    | _ => (z, json.UnmarshalTypeError ctx j "int64")
    end.

Definition decodeToken : Unmarshaler Token :=
  decodeStruct "Token" "msgraph.Token"
    [field "access_token" AccessToken (fun x t => mkToken x (ExpiresOn t));
     @field _ _ decodeInstant "expires_on" ExpiresOn
       (fun x t => mkToken (AccessToken t) x)].

Definition platform : Platform := {|
  APIVersion := "v1.0";
  BaseURL := "https://graph.microsoft.com";
  LoginBaseURL := "https://login.microsoftonline.com";
  MaxPageSize := 999;
  margin := 10;
  url_Parse := Parse;
  url_ParseRequestURI := Parse;
  URL_String := String_of;
  json_scan := scan;
  Token_Unmarshaler := decodeToken
|}.

(** A remote side that grants a token to every POST and answers every GET
    with the empty object. *)
Definition granting (req : Request) : DoResult :=
  if decide (Method req = "POST")
  then DoResp (mkResponse 200 tokenDocument None)
  else DoResp (mkResponse 200 emptyDocument None).

(** A remote side that answers everything with status 500. *)
Definition failing (req : Request) : DoResult :=
  DoResp (mkResponse 500 "server error" None).

Definition env (now : Z) : Env := mkEnv now granting.

Definition aClient : GraphClient :=
  mkGraphClient "tenant" "app" "secret" (mkToken "Bearer old" 500).

End Toy.

(** ** Mails the theorems are stated on *)

(** The four calls of the specification's example, on a mail [m0]. *)
Definition exampleContent : string :=
  "a,b" +:+ String (ascii_of_nat 10) ("1,2" +:+ String (ascii_of_nat 10) "").

Definition exampleMail (m0 : Mail) : Mail :=
  let m := fst (AddRecipient ["a@x.com"] m0) in
  let m := fst (AddRecipient ["b@x.com"; "B Name"] m) in
  let m := Body "HTML" "<b>hi</b>" m in
  AddFileAttachment "f.csv" "text/plain" exampleContent m.

(** The mails the builder constructs from well-formed UTF-8 text. The content
    of an attachment is arbitrary: it enters the mail in base64. *)
Inductive Built : Mail -> Prop :=
| Built_MakeMail : Built MakeMail
| Built_NewMail : Built NewMail
| Built_Subject s m :
    utf8.ValidString s = true -> Built m -> Built (Subject s m)
| Built_AddRecipient l m :
    Forall (fun s => utf8.ValidString s = true) l ->
    Built m -> Built (fst (AddRecipient l m))
| Built_CCRecipient l m :
    Forall (fun s => utf8.ValidString s = true) l ->
    Built m -> Built (fst (CCRecipient l m))
| Built_BCCRecipient l m :
    Forall (fun s => utf8.ValidString s = true) l ->
    Built m -> Built (fst (BCCRecipient l m))
| Built_From l m :
    Forall (fun s => utf8.ValidString s = true) l ->
    Built m -> Built (fst (From l m))
| Built_Body contentType content m :
    utf8.ValidString contentType = true -> utf8.ValidString content = true ->
    Built m -> Built (Body contentType content m)
| Built_AddFileAttachment name contentType content m :
    utf8.ValidString name = true -> utf8.ValidString contentType = true ->
    Built m -> Built (AddFileAttachment name contentType content m).

(** Every string of a mail is well-formed UTF-8. *)
Definition validEmailAddress (e : EmailAddress) : Prop :=
  utf8.ValidString (Name e) = true /\ utf8.ValidString (Address e) = true.

Definition validRecipient (r : Recipient) : Prop :=
  validEmailAddress (emailAddress r).

Definition validAttachment (a : Attachment) : Prop :=
  utf8.ValidString (DataType a) = true /\ utf8.ValidString (AttName a) = true
  /\ utf8.ValidString (AttContentType a) = true
  /\ utf8.ValidString (ContentBytes a) = true.

Definition validMail (m : Mail) : Prop :=
  let g := message m in
  utf8.ValidString (MsgSubject g) = true
  /\ utf8.ValidString (ContentType (MsgBodyOf g)) = true
  /\ utf8.ValidString (Content (MsgBodyOf g)) = true
  /\ Forall validRecipient (elems (ToRecipients g))
  /\ Forall validRecipient (elems (CcRecipients g))
  /\ Forall validRecipient (elems (BccRecipients g))
  /\ validRecipient (MsgFrom g)
  /\ Forall validAttachment (elems (Attachments g)).

(** A mail the builder constructs whose body is one byte that is no UTF-8. *)
Definition latin1Mail : Mail :=
  Body "Text" (String (ascii_of_nat 255) "") MakeMail.

(** ** What the theorems speak of *)

(** A byte below 128. *)
Definition ascii7 (c : ascii) : Prop := (utf8.byte c <? 128) = true.

Section ClientSpec.
Context `{Platform}.

(** [sub] occurs in [s]. *)
Definition contains (sub s : string) : Prop :=
  exists pre post, s = pre +:+ sub +:+ post.

(** The form refreshToken posts for a client's identity. *)
Definition grantForm (applicationID clientSecret : string) : Values :=
  Values_Add "resource" BaseURL
    (Values_Add "client_secret" clientSecret
       (Values_Add "client_id" applicationID
          (Values_Add "grant_type" "client_credentials" ∅))).

(** The request makeGETAPICall sends to the API for a resource path, the
    caller's parameters and a token. *)
Definition isAPIRequest (apicall : string) (getParams : option Values)
    (tok : Token) (req : Request) : Prop :=
  let params := default ∅ getParams in
  Method req = "GET"
  /\ Path (ReqURL req) = "/" +:+ APIVersion +:+ apicall
  /\ (exists query : Values,
        RawQuery (ReqURL req) = Values_Encode query
        /\ query !! "$top"
           = Some (default [] (params !! "$top") ++ [Itoa MaxPageSize])%list
        /\ forall k, k <> "$top" -> query !! k = params !! k)
  /\ ReqHeader req !! "Authorization" = Some [GetAccessToken tok]
  /\ ReqHeader req !! "Content-Type" = Some ["application/json"]
  /\ ReqBody req = None.

End ClientSpec.

(** The error of a call, for a goroutine that drops the value. *)
Definition errorOf {V} (p : Prog (V * error)) : Prog error :=
  p ≫= fun r => mret (snd r).

(** The discipline of the mutex, followed along a method: [held] says whether
    the goroutine holds [g.apiCall], [depth] how many executions of
    refreshToken it is in. A goroutine locks only what it does not hold, and
    what it does to the client, the clock or the network, it does holding the
    mutex; it enters refreshToken from outside of it and leaves it from
    inside. [None] is a breach. *)
Definition gate {X} (e : Eff X) (held : bool) (depth : nat)
    : option (bool * nat) :=
  match e with
  | Lock => if held then None else Some (true, depth)
  | Unlock =>
      if held && Nat.eqb depth 0 then Some (false, depth) else None
  | Enter => if held && Nat.eqb depth 0 then Some (held, 1%nat) else None
  | Leave => if held && Nat.eqb depth 1 then Some (held, 0%nat) else None
  | _ => if held then Some (held, depth) else None
  end.

(** Every path of [p] keeps the discipline from [(held, depth)] on and ends
    in a state [Q] accepts. *)
Fixpoint passes {A} (held : bool) (depth : nat) (p : Prog A)
    (Q : A -> bool -> nat -> Prop) : Prop :=
  match p with
  | Ret a => Q a held depth
  | Vis e k =>
      match gate e held depth with
      | Some (held', depth') => forall x, passes held' depth' (k x) Q
      | None => False
      end
  end.

(** A method that keeps the discipline and returns with the mutex released. *)
Definition gated {A} (held : bool) (depth : nat) (p : Prog A) : Prop :=
  passes held depth p (fun _ held' depth' => held' = false /\ depth' = 0%nat).

(** No goroutine holds the mutex, or exactly one does and the executions of
    refreshToken in flight are its own. *)
Definition disciplined (c : World * Pool) : Prop :=
  let '(w, pool) := c in
  if apiCall w then
    exists i d p, pool !! i = Some p /\ gated true d p
      /\ inflight 0 (trace w) = d /\ (d <= 1)%nat
      /\ forall j q, j <> i -> pool !! j = Some q -> gated false 0 q
  else
    inflight 0 (trace w) = 0%nat /\ Forall (gated false 0) pool.

(** The calls that take the mutex: the API methods, which all go through
    makeGETAPICall, and NewGraphClient. *)
Inductive lockedCall `{Platform} : Prog error -> Prop :=
| call_GET {V} `{Unmarshaler V} (apicall : string) (getParams : option Values)
    (v : V) :
    lockedCall (errorOf (makeGETAPICall apicall getParams v))
| call_New : lockedCall NewGraphClient.

(** An event that touches the token while the mutex is free. *)
Definition unguarded (ev : bool * Event) : bool :=
  negb (fst ev) && touchesToken (snd ev).

(** ** Inputs the theorems are run on *)

(** A response with a good status whose body broke off. *)
Definition brokenBody : Response :=
  mkResponse 200 Toy.emptyDocument (Some "unexpected EOF").

Definition breaking : Env := mkEnv 0 (fun _ => DoResp brokenBody).

Definition aRequest : Request :=
  mkRequest "GET" (mkURL "https" "graph.microsoft.com" "/v1.0/users" "") ∅ None.

(** A client that is stale at instant 495, and two goroutines on it: one
    lists the users, the other unmarshals a configuration into the client. *)
Definition racing : Pool :=
  [errorOf (@makeGETAPICall Toy.platform _ _ "/users" None (mkTmp "" "" ""));
   @UnmarshalJSON Toy.platform Toy.configDocument].

Definition raceSchedule : list nat := [0; 0; 0; 0; 1; 1; 1; 1; 1; 1; 1]%nat.

(** Two goroutines that both take the mutex, and a schedule that runs the
    first call to its end and then the second. *)
Definition servedSchedule : list nat :=
  (repeat 0%nat 14 ++ repeat 1%nat 10)%list.

Definition queueing : Pool :=
  [errorOf (@makeGETAPICall Toy.platform _ _ "/users" None (mkTmp "" "" ""));
   @NewGraphClient Toy.platform].

(** ** Sequences of builder calls *)

(** One call of a builder method, with its arguments. *)
Inductive Op : Type :=
| OpSubject (subject : string)
| OpAddRecipient (recipient : list string)
| OpCCRecipient (recipient : list string)
| OpBCCRecipient (recipient : list string)
| OpFrom (from : list string)
| OpBody (contentType content : string)
| OpAddFileAttachment (attachmentName contentType content : string).

(** The mail after the call; the error a method returns is dropped, as a
    caller does who does not look at it. *)
Definition applyOp (o : Op) (m : Mail) : Mail :=
  match o with
  | OpSubject s => Subject s m
  | OpAddRecipient l => fst (AddRecipient l m)
  | OpCCRecipient l => fst (CCRecipient l m)
  | OpBCCRecipient l => fst (BCCRecipient l m)
  | OpFrom l => fst (From l m)
  | OpBody t c => Body t c m
  | OpAddFileAttachment n t c => AddFileAttachment n t c m
  end.

Definition build (ops : list Op) (m0 : Mail) : Mail :=
  fold_left (fun m o => applyOp o m) ops m0.

(** The entry one or two arguments stand for: the address, then the name. *)
Definition entryOf (args : list string) : option Recipient :=
  match args with
  | [a] => Some (mkRecipient (mkEmailAddress "" a))
  | [a; n] => Some (mkRecipient (mkEmailAddress n a))
  | _ => None
  end.

Definition toOf (o : Op) : option Recipient :=
  match o with OpAddRecipient l => entryOf l | _ => None end.

Definition ccOf (o : Op) : option Recipient :=
  match o with OpCCRecipient l => entryOf l | _ => None end.

Definition bccOf (o : Op) : option Recipient :=
  match o with OpBCCRecipient l => entryOf l | _ => None end.

Definition fromOf (o : Op) : option Recipient :=
  match o with OpFrom l => entryOf l | _ => None end.

Definition subjectOf (o : Op) : option string :=
  match o with OpSubject s => Some s | _ => None end.

Definition bodyOf (o : Op) : option MsgBody :=
  match o with OpBody t c => Some (mkMsgBody t c) | _ => None end.

Definition attachmentOf (o : Op) : option Attachment :=
  match o with
  | OpAddFileAttachment n t c =>
      Some (mkAttachment "#microsoft.graph.fileAttachment" n t
                         (Base64.EncodeToString c))
  | _ => None
  end.

(** The last of the values a sequence of calls sets, or what was there. *)
Definition lastSet {A} (f : Op -> option A) (ops : list Op) (initial : A) : A :=
  default initial (last (omap f ops)).

(** ** The API methods *)

(** [time.Time] as [Format] reads it: the date, the day of the year and of
    the week and the clock the time shows in its location, its nanoseconds,
    and the name and the offset in seconds of its zone (what [t.locabs],
    [absDate], [absWeekday], [absClock] and [t.Nanosecond] return). *)
Record Time : Type := mkTime {
  Year : Z;
  Month : Z;
  Day : Z;
  YearDay : Z;
  Weekday : Z;
  Hour : Z;
  Minute : Z;
  Second : Z;
  Nanosecond : Z;
  ZoneName : string;
  ZoneOffset : Z
}.

Module time.

(** [appendInt(b, x, width)]: the sign, zeros up to [width] digits, the
    decimal digits. *)
Definition appendInt (x : Z) (width : nat) : string :=
  let digits := Itoa (Z.abs x) in
  (if x <? 0 then "-" else "")
  +:+ string_of_list_ascii
        (repeat "0"%char (width - String.length digits))
  +:+ digits.

(** The elements of a layout ([stdLongMonth] and the following constants);
    a fractional second carries its number of digits and its separator. *)
Inductive std : Type :=
| stdLongMonth
| stdMonth
| stdNumMonth
| stdZeroMonth
| stdLongWeekDay
| stdWeekDay
| stdDay
| stdUnderDay
| stdZeroDay
| stdUnderYearDay
| stdZeroYearDay
| stdHour
| stdHour12
| stdZeroHour12
| stdMinute
| stdZeroMinute
| stdSecond
| stdZeroSecond
| stdLongYear
| stdYear
| stdPM
| stdpm
| stdTZ
| stdISO8601TZ
| stdISO8601SecondsTZ
| stdISO8601ShortTZ
| stdISO8601ColonTZ
| stdISO8601ColonSecondsTZ
| stdNumTZ
| stdNumSecondsTz
| stdNumShortTZ
| stdNumColonTZ
| stdNumColonSecondsTZ
| stdFracSecond0 (digits : nat) (separator : ascii)
| stdFracSecond9 (digits : nat) (separator : ascii).

Definition between (lo hi c : ascii) : bool :=
  (utf8.byte lo <=? utf8.byte c) && (utf8.byte c <=? utf8.byte hi).

Definition startsWithLowerCase (s : string) : bool :=
  match s with
  | String c _ => between "a" "z" c
  | EmptyString => false
  end.

(** [isDigit(s, 0)] *)
Definition isDigit (s : string) : bool :=
  match s with
  | String c _ => between "0" "9" c
  | EmptyString => false
  end.

(** [s[n:]] *)
Fixpoint after (n : nat) (s : string) : string :=
  match n, s with
  | S n', String _ r => after n' r
  | _, _ => s
  end.

(** The bytes equal to [ch] that [s] starts with. *)
Fixpoint repeated (ch : ascii) (s : string) : nat :=
  match s with
  | String c r => if Ascii.eqb c ch then S (repeated ch r) else O
  | EmptyString => O
  end.

(** [std0x]: the elements [01] to [06]. *)
Definition std0x (c : ascii) : std :=
  if Ascii.eqb c "1" then stdZeroMonth
  else if Ascii.eqb c "2" then stdZeroDay
  else if Ascii.eqb c "3" then stdZeroHour12
  else if Ascii.eqb c "4" then stdZeroMinute
  else if Ascii.eqb c "5" then stdZeroSecond
  else stdYear.

(** One turn of the loop of [nextStdChunk], at the byte [s] starts with: the
    element that starts there, with the bytes of the layout it takes and the
    text that goes before it ([_2006] is a literal [_] and the long year), or
    [None] where the loop goes on to the next byte and this one is part of
    the prefix. *)
Definition stdAt (s : string) : option (string * std * nat) :=
  match s with
  | EmptyString => None
  | String c r =>
      if Ascii.eqb c "J" then
        if String.prefix "Jan" s then
          if String.prefix "January" s then Some ("", stdLongMonth, 7%nat)
          else if negb (startsWithLowerCase (after 3 s))
          then Some ("", stdMonth, 3%nat)
          else None
        else None
      else if Ascii.eqb c "M" then
        if String.prefix "Mon" s then
          if String.prefix "Monday" s then Some ("", stdLongWeekDay, 6%nat)
          else if negb (startsWithLowerCase (after 3 s))
          then Some ("", stdWeekDay, 3%nat)
          else None
        else if String.prefix "MST" s then Some ("", stdTZ, 3%nat)
        else None
      else if Ascii.eqb c "0" then
        match r with
        | String c1 r1 =>
            if between "1" "6" c1 then Some ("", std0x c1, 2%nat)
            else if String.prefix "02" r then Some ("", stdZeroYearDay, 3%nat)
            else None
        | EmptyString => None
        end
      else if Ascii.eqb c "1" then
        if String.prefix "5" r then Some ("", stdHour, 2%nat)
        else Some ("", stdNumMonth, 1%nat)
      else if Ascii.eqb c "2" then
        if String.prefix "2006" s then Some ("", stdLongYear, 4%nat)
        else Some ("", stdDay, 1%nat)
      else if Ascii.eqb c "_" then
        if String.prefix "2" r then
          if String.prefix "2006" r then Some ("_", stdLongYear, 5%nat)
          else Some ("", stdUnderDay, 2%nat)
        else if String.prefix "_2" r then Some ("", stdUnderYearDay, 3%nat)
        else None
      else if Ascii.eqb c "3" then Some ("", stdHour12, 1%nat)
      else if Ascii.eqb c "4" then Some ("", stdMinute, 1%nat)
      else if Ascii.eqb c "5" then Some ("", stdSecond, 1%nat)
      else if Ascii.eqb c "P" then
        if String.prefix "M" r then Some ("", stdPM, 2%nat) else None
      else if Ascii.eqb c "p" then
        if String.prefix "m" r then Some ("", stdpm, 2%nat) else None
      else if Ascii.eqb c "-" then
        if String.prefix "-070000" s then Some ("", stdNumSecondsTz, 7%nat)
        else if String.prefix "-07:00:00" s
        then Some ("", stdNumColonSecondsTZ, 9%nat)
        else if String.prefix "-0700" s then Some ("", stdNumTZ, 5%nat)
        else if String.prefix "-07:00" s then Some ("", stdNumColonTZ, 6%nat)
        else if String.prefix "-07" s then Some ("", stdNumShortTZ, 3%nat)
        else None
      else if Ascii.eqb c "Z" then
        if String.prefix "Z070000" s then Some ("", stdISO8601SecondsTZ, 7%nat)
        else if String.prefix "Z07:00:00" s
        then Some ("", stdISO8601ColonSecondsTZ, 9%nat)
        else if String.prefix "Z0700" s then Some ("", stdISO8601TZ, 5%nat)
        else if String.prefix "Z07:00" s
        then Some ("", stdISO8601ColonTZ, 6%nat)
        else if String.prefix "Z07" s then Some ("", stdISO8601ShortTZ, 3%nat)
        else None
      else if Ascii.eqb c "." || Ascii.eqb c "," then
        match r with
        | String ch _ =>
            if Ascii.eqb ch "0" || Ascii.eqb ch "9" then
              let n := repeated ch r in
              if negb (isDigit (after n r)) then
                Some ("",
                      if Ascii.eqb ch "9" then stdFracSecond9 n c
                      else stdFracSecond0 n c,
                      S n)
              else None
            else None
        | EmptyString => None
        end
      else None
  end.

Definition longMonthNames : list string :=
  ["January"; "February"; "March"; "April"; "May"; "June"; "July"; "August";
   "September"; "October"; "November"; "December"].

Definition longDayNames : list string :=
  ["Sunday"; "Monday"; "Tuesday"; "Wednesday"; "Thursday"; "Friday";
   "Saturday"].

(** [Month.String] and [Weekday.String]; the name for a number outside the
    months and the days, which no [Time] shows, is Go's [%!Month(n)]. *)
Definition Month_String (m : Z) : string :=
  if (1 <=? m) && (m <=? 12)
  then nth (Z.to_nat (m - 1)) longMonthNames ""
  else "%!Month(" +:+ Itoa m +:+ ")".

Definition Weekday_String (d : Z) : string :=
  if (0 <=? d) && (d <=? 6)
  then nth (Z.to_nat d) longDayNames ""
  else "%!Weekday(" +:+ Itoa d +:+ ")".

(** The bytes of [s] without the zeros it ends in. *)
Fixpoint trimZeros (s : string) : string :=
  match s with
  | EmptyString => EmptyString
  | String c r =>
      match trimZeros r with
      | EmptyString => if Ascii.eqb c "0" then EmptyString else String c ""
      | r' => String c r'
      end
  end.

(** [appendNano]: the separator and the first digits of the nanoseconds;
    with [trim], without the zeros at the end, and nothing at all when no
    digit is left. *)
Definition appendNano (nanosec : Z) (digits : nat) (separator : ascii)
    (trim : bool) : string :=
  let shown := substring 0 (Nat.min digits 9) (appendInt nanosec 9) in
  if trim then
    match trimZeros shown with
    | EmptyString => ""
    | kept => String separator kept
    end
  else String separator shown.

Definition isISO8601 (st : std) : bool :=
  match st with
  | stdISO8601TZ | stdISO8601ColonTZ | stdISO8601SecondsTZ
  | stdISO8601ShortTZ | stdISO8601ColonSecondsTZ => true
  | _ => false
  end.

(** The numeric zone elements. *)
Definition appendZone (offset : Z) (st : std) : string :=
  if (offset =? 0) && isISO8601 st then "Z"
  else
    let zone := Z.quot offset 60 in
    let negative := zone <? 0 in
    let zone := if negative then - zone else zone in
    let absoffset := if negative then - offset else offset in
    (if negative then "-" else "+")
    +:+ appendInt (Z.quot zone 60) 2
    +:+ match st with
        | stdISO8601ColonTZ | stdNumColonTZ | stdISO8601ColonSecondsTZ
        | stdNumColonSecondsTZ => ":"
        | _ => ""
        end
    +:+ match st with
        | stdNumShortTZ | stdISO8601ShortTZ => ""
        | _ => appendInt (Z.rem zone 60) 2
        end
    +:+ match st with
        | stdISO8601SecondsTZ | stdNumSecondsTz =>
            appendInt (Z.rem absoffset 60) 2
        | stdNumColonSecondsTZ | stdISO8601ColonSecondsTZ =>
            ":" +:+ appendInt (Z.rem absoffset 60) 2
        | _ => ""
        end.

(** The switch of [AppendFormat]: what one element prints of a time. *)
Definition appendStd (t : Time) (st : std) : string :=
  match st with
  | stdYear => appendInt (Z.rem (Z.abs (Year t)) 100) 2
  | stdLongYear => appendInt (Year t) 4
  | stdMonth => substring 0 3 (Month_String (Month t))
  | stdLongMonth => Month_String (Month t)
  | stdNumMonth => appendInt (Month t) 0
  | stdZeroMonth => appendInt (Month t) 2
  | stdWeekDay => substring 0 3 (Weekday_String (Weekday t))
  | stdLongWeekDay => Weekday_String (Weekday t)
  | stdDay => appendInt (Day t) 0
  | stdUnderDay => (if Day t <? 10 then " " else "") +:+ appendInt (Day t) 0
  | stdZeroDay => appendInt (Day t) 2
  | stdUnderYearDay =>
      (if YearDay t <? 100
       then " " +:+ (if YearDay t <? 10 then " " else "")
       else "")
      +:+ appendInt (YearDay t) 0
  | stdZeroYearDay => appendInt (YearDay t) 3
  | stdHour => appendInt (Hour t) 2
  | stdHour12 =>
      let hr := Z.rem (Hour t) 12 in
      appendInt (if hr =? 0 then 12 else hr) 0
  | stdZeroHour12 =>
      let hr := Z.rem (Hour t) 12 in
      appendInt (if hr =? 0 then 12 else hr) 2
  | stdMinute => appendInt (Minute t) 0
  | stdZeroMinute => appendInt (Minute t) 2
  | stdSecond => appendInt (Second t) 0
  | stdZeroSecond => appendInt (Second t) 2
  | stdPM => if 12 <=? Hour t then "PM" else "AM"
  | stdpm => if 12 <=? Hour t then "pm" else "am"
  | stdTZ =>
      if decide (ZoneName t = "") then appendZone (ZoneOffset t) stdNumTZ
      else ZoneName t
  | stdFracSecond0 digits separator =>
      appendNano (Nanosecond t) digits separator false
  | stdFracSecond9 digits separator =>
      appendNano (Nanosecond t) digits separator true
  | _ => appendZone (ZoneOffset t) st
  end.

(** The loop of [AppendFormat], byte by byte over the layout: where an
    element starts, what it prints of the time; elsewhere the byte itself.
    [skip] bytes of the element in progress are still to be passed. *)
Fixpoint formatFrom (t : Time) (skip : nat) (layout : string) : string :=
  match layout with
  | EmptyString => EmptyString
  | String c r =>
      match skip with
      | S n => formatFrom t n r
      | O =>
          match stdAt layout with
          | Some (before, st, len) =>
              before +:+ appendStd t st +:+ formatFrom t (len - 1) r
          | None => String c (formatFrom t 0 r)
          end
      end
  end.

(** [t.Format(layout)] *)
Definition Format (t : Time) (layout : string) : string :=
  formatFrom t 0 layout.

End time.

(** The anonymous struct the list methods decode into: one field, under the
    key [value]. *)
Record marsh (V : Type) : Type := mkMarsh {
  Value : V
}.
Arguments mkMarsh {V} Value.
Arguments Value {V} m.

(** The struct's type as [reflect] prints it, for a field [fieldName] of
    type [goType] with the tag [json:"value"]; the quotation mark is byte 34,
    the backslash byte 92. *)
Definition marshType (fieldName goType : string) : string :=
  let quote := String (ascii_of_nat 34) "" in
  let escaped := String (ascii_of_nat 92) quote in
  "struct { " +:+ fieldName +:+ " " +:+ goType +:+ " "
  +:+ quote +:+ "json:" +:+ escaped +:+ "value" +:+ escaped +:+ quote +:+ " }".

Definition marsh_Unmarshaler {V} `{Unmarshaler V} (goType : string)
    : Unmarshaler (marsh V) :=
  decodeStruct "" goType [field "value" Value (fun x _ => mkMarsh x)].

Section Methods.
Context `{Platform}.

(** The declarations of [User], [Users], [Calendars] and [CalendarEvents] are
    not among the sources: the result type of a method is a parameter, with
    its decoder, and the method takes the zero value its variable starts
    with. In [return users, g.makeGETAPICall(resource, nil, &users)] Go leaves
    the order of the read of the variable and the call open; the compiler
    reads the variable, whose address was taken, after the call, and the
    methods rely on it: the result is the variable as the call left it. *)

(** ListUsers returns a list of all users. *)
Definition ListUsers {Users} `{Unmarshaler Users} (users : Users)
    : Prog (Users * error) :=
  let resource := "/users" in
  makeGETAPICall resource None users.

(** ListMembersOfGroup returns a list of users who are members to the group
    identified by the given groupID. *)
Definition ListMembersOfGroup {Users} `{Unmarshaler Users} (zero : Users)
    (groupID : string) : Prog (Users * error) :=
  let resource := "/groups/" +:+ groupID +:+ "/members" in
  r ← @makeGETAPICall _ _
         (marsh_Unmarshaler (marshType "Users" "msgraph.Users"))
         resource None (mkMarsh zero);
  mret (Value (fst r), snd r).

(** GetUser returns the user object associated to the given user. *)
Definition GetUser {User} `{Unmarshaler User} (user : User)
    (identifier : string) : Prog (User * error) :=
  let resource := "/users/" +:+ identifier in
  makeGETAPICall resource None user.

(** ListUserCalendars returns all calendars associated to that user. *)
Definition ListUserCalendars {Calendars} `{Unmarshaler Calendars}
    (zero : Calendars) (identifier : string) : Prog (Calendars * error) :=
  let resource := "/users/" +:+ identifier +:+ "/calendars" in
  r ← @makeGETAPICall _ _
         (marsh_Unmarshaler (marshType "Calendars" "msgraph.Calendars"))
         resource None (mkMarsh zero);
  mret (Value (fst r), snd r).

(** ListCalendarView returns the CalendarEvents of the given user within the
    specified start- and endDateTime. *)
Definition ListCalendarView {CalendarEvents} `{Unmarshaler CalendarEvents}
    (calendarEvents : CalendarEvents) (identifier : string)
    (startDateTime endDateTime : Time) : Prog (CalendarEvents * error) :=
  let resource := "/users/" +:+ identifier +:+ "/calendar/calendarview" in
  let getParams := ∅ in
  let getParams :=
    Values_Add "startdatetime"
               (time.Format startDateTime "2006-01-02T00:00:00") getParams in
  let getParams :=
    Values_Add "enddatetime"
               (time.Format endDateTime "2006-01-02T00:00:00") getParams in
  makeGETAPICall resource (Some getParams) calendarEvents.

End Methods.

(** A call of one of the methods above, of makeGETAPICall itself, or of
    NewGraphClient, as a goroutine runs it. *)
Inductive apiMethod `{Platform} : Prog error -> Prop :=
| api_GET {V} `{Unmarshaler V} (apicall : string) (getParams : option Values)
    (v : V) :
    apiMethod (errorOf (makeGETAPICall apicall getParams v))
| api_ListUsers {V} `{Unmarshaler V} (zero : V) :
    apiMethod (errorOf (ListUsers zero))
| api_ListMembersOfGroup {V} `{Unmarshaler V} (zero : V) (groupID : string) :
    apiMethod (errorOf (ListMembersOfGroup zero groupID))
| api_GetUser {V} `{Unmarshaler V} (zero : V) (identifier : string) :
    apiMethod (errorOf (GetUser zero identifier))
| api_ListUserCalendars {V} `{Unmarshaler V} (zero : V) (identifier : string) :
    apiMethod (errorOf (ListUserCalendars zero identifier))
| api_ListCalendarView {V} `{Unmarshaler V} (zero : V) (identifier : string)
    (startDateTime endDateTime : Time) :
    apiMethod (errorOf (ListCalendarView zero identifier startDateTime
                                         endDateTime))
| api_New : apiMethod NewGraphClient.

(** Calls made one after the other by one goroutine, each with the clock and
    the remote side it meets. *)
Fixpoint runAll (calls : list (Env * Prog error)) (w : World)
    : option (list error * World) :=
  match calls with
  | [] => Some ([], w)
  | (env, p) :: rest =>
      match run env p w with
      | Some (err, w1) =>
          match runAll rest w1 with
          | Some (errs, w') => Some (err :: errs, w')
          | None => None
          end
      | None => None
      end
  end.

(** No path of [p] assigns one of the client's identity fields. *)
Fixpoint storesNothing {A} (p : Prog A) : Prop :=
  match p with
  | Ret _ => True
  | Vis e k =>
      match e with
      | Store _ _ => False
      | _ => True
      end
      /\ forall x, storesNothing (k x)
  end.

(** The two dates agree; the clocks may differ. *)
Definition sameDate (t1 t2 : Time) : Prop :=
  Year t1 = Year t2 /\ Month t1 = Month t2 /\ Day t1 = Day t2.

(** [enc.decodeMap[c]] of encoding/base64: the place of a byte in the
    alphabet, 255 for a byte outside of it. *)
Fixpoint place (c : ascii) (alphabet : string) (i : Z) : Z :=
  match alphabet with
  | EmptyString => 255
  | String a rest => if Ascii.eqb a c then i else place c rest (i + 1)
  end.

Definition decodeMap (c : ascii) : Z := place c Base64.encodeStd 0.

(** An event as the discipline of the mutex has it: a [Lock] found the mutex
    free, everything else was done with the mutex held. *)
Definition underMutex (ev : bool * Event) : Prop :=
  match snd ev with
  | EvLock => fst ev = false
  | _ => fst ev = true
  end.

(** Two days of March 2024, a Tuesday and a Wednesday, at midnight UTC, and
    a time with another clock on the same day. *)
Definition dayOne : Time := mkTime 2024 3 5 65 2 0 0 0 0 "UTC" 0.
Definition dayTwo : Time := mkTime 2024 3 6 66 3 0 0 0 0 "UTC" 0.

Definition clockAt (hour minute second : Z) (t : Time) : Time :=
  mkTime (Year t) (Month t) (Day t) (YearDay t) (Weekday t) hour minute second
         (Nanosecond t) (ZoneName t) (ZoneOffset t).

(** A remote side that cannot be reached. *)
Definition unreachable : Env :=
  mkEnv 0 (fun _ => DoErr "dial tcp: i/o timeout").

(** The small platform with a base URL that lacks its scheme. *)
Definition schemeless : Platform := {|
  APIVersion := "v1.0";
  BaseURL := "graph.microsoft.com";
  LoginBaseURL := "https://login.microsoftonline.com";
  MaxPageSize := 999;
  margin := 10;
  url_Parse := Toy.Parse;
  url_ParseRequestURI := Toy.Parse;
  URL_String := Toy.String_of;
  json_scan := Toy.scan;
  Token_Unmarshaler := Toy.decodeToken
|}.

(** A mail with every string as the encoder writes it: each byte that is
    not part of a well-formed encoding replaced by the replacement
    character. The lists keep their entries in order, and [nil] stays
    [nil]. *)
Definition coerceEmailAddress (e : EmailAddress) : EmailAddress :=
  mkEmailAddress (json.coerce (Name e)) (json.coerce (Address e)).

Definition coerceRecipient (r : Recipient) : Recipient :=
  mkRecipient (coerceEmailAddress (emailAddress r)).

Definition coerceMsgBody (b : MsgBody) : MsgBody :=
  mkMsgBody (json.coerce (ContentType b)) (json.coerce (Content b)).

Definition coerceAttachment (a : Attachment) : Attachment :=
  mkAttachment (json.coerce (DataType a)) (json.coerce (AttName a))
               (json.coerce (AttContentType a)) (json.coerce (ContentBytes a)).

Definition mapSlice {A B} (f : A -> B) (s : slice A) : slice B :=
  match s with
  | SliceNil => SliceNil
  | Slice l => Slice (List.map f l)
  end.

Definition coerceMail (m : Mail) : Mail :=
  let g := message m in
  mkMail (mkMessage (json.coerce (MsgSubject g)) (coerceMsgBody (MsgBodyOf g))
                    (mapSlice coerceRecipient (ToRecipients g))
                    (mapSlice coerceRecipient (CcRecipients g))
                    (mapSlice coerceRecipient (BccRecipients g))
                    (coerceRecipient (MsgFrom g))
                    (mapSlice coerceAttachment (Attachments g))).

(** * Properties of the mail builder *)

(** C7. AddRecipient called with no argument, or with three or more, returns
    the argument-count error and leaves every field of the mail as it was. *)
Theorem AddRecipient_argument_count (recipient : list string) (m : Mail) :
  (length recipient = 0 \/ 3 <= length recipient)%nat ->
  AddRecipient recipient m
  = (m, Some "add recipient only accepts 1-2 arguments").
Proof.
  intros Hlen. unfold AddRecipient.
  destruct recipient as [|a [|b [|c rest]]]; simpl in *;
    solve [reflexivity | lia].
Qed.

Lemma AddRecipient_argument_count_witness :
  AddRecipient [] MakeMail
  = (MakeMail, Some "add recipient only accepts 1-2 arguments")
  /\ AddRecipient ["a"; "b"; "c"] NewMail
     = (NewMail, Some "add recipient only accepts 1-2 arguments").
Proof.
  split.
  - apply (AddRecipient_argument_count [] MakeMail). left. reflexivity.
  - apply (AddRecipient_argument_count ["a"; "b"; "c"] NewMail).
    right. simpl. lia.
Defined.

(** C8. On a mail fresh from [MakeMail] or from [NewMail], the four calls of
    the example leave a To-list of exactly the two recipients in the order
    they were added, the second with the display name, the body of type HTML
    with the given content, and one attachment carrying the file-attachment
    discriminator and the standard base64 text of the content. Neither
    AddRecipient call returns an error. *)
Theorem exampleMail_shape :
  Forall (fun m0 =>
    let m := message (exampleMail m0) in
    ToRecipients m
    = Slice [mkRecipient (mkEmailAddress "" "a@x.com");
             mkRecipient (mkEmailAddress "B Name" "b@x.com")]
    /\ MsgBodyOf m = mkMsgBody "HTML" "<b>hi</b>"
    /\ Attachments m
       = Slice [mkAttachment "#microsoft.graph.fileAttachment" "f.csv"
                             "text/plain"
                             (Base64.EncodeToString exampleContent)]
    /\ Base64.EncodeToString exampleContent = "YSxiCjEsMgo="
    /\ snd (AddRecipient ["a@x.com"] m0) = None
    /\ snd (AddRecipient ["b@x.com"; "B Name"]
                         (fst (AddRecipient ["a@x.com"] m0))) = None)
    [MakeMail; NewMail].
Proof.
  repeat constructor.
Qed.

(** ** The JSON round trip of a mail *)

Section RoundTrip.

(** Well-formed UTF-8 is encoded as it stands. *)
Lemma coerceFrom_valid (s : string) :
  forall pending, utf8.validFrom pending s = true -> json.coerceFrom pending s = s.
Proof.
  induction s as [|c r IH]; intros pending Hv; [reflexivity|].
  destruct pending as [|n].
  - cbn [utf8.validFrom] in Hv. cbn [json.coerceFrom].
    destruct (utf8.runeSize (String c r)) as [k|]; [|discriminate].
    f_equal. apply IH, Hv.
  - cbn [utf8.validFrom] in Hv. cbn [json.coerceFrom]. f_equal. apply IH, Hv.
Qed.

Lemma string_roundTrip (ctx : option json.errorContext) (s s0 : string) :
  utf8.ValidString s = true -> fromJSON ctx (toJSON s) s0 = (s, None).
Proof.
  intros Hv. unfold toJSON, string_Marshaler, fromJSON, string_Unmarshaler.
  unfold json.coerce. rewrite coerceFrom_valid by exact Hv. reflexivity.
Qed.

Lemma EmailAddress_roundTrip (ctx : option json.errorContext) (e e0 : EmailAddress) :
  validEmailAddress e -> fromJSON ctx (toJSON e) e0 = (e, None).
Proof.
  intros [Hn Ha]. destruct e as [n a]; simpl in *.
  unfold fromJSON, EmailAddress_Unmarshaler, toJSON, EmailAddress_Marshaler.
  cbn -[fromJSON toJSON].
  rewrite !string_roundTrip by assumption. reflexivity.
Qed.

Lemma Recipient_roundTrip (ctx : option json.errorContext) (r r0 : Recipient) :
  validRecipient r -> fromJSON ctx (toJSON r) r0 = (r, None).
Proof.
  intros Hr. destruct r as [e]; unfold validRecipient in Hr; simpl in Hr.
  unfold fromJSON, Recipient_Unmarshaler, toJSON, Recipient_Marshaler.
  cbn -[fromJSON toJSON].
  rewrite EmailAddress_roundTrip by assumption. reflexivity.
Qed.

Lemma MsgBody_roundTrip (ctx : option json.errorContext) (b b0 : MsgBody) :
  utf8.ValidString (ContentType b) = true ->
  utf8.ValidString (Content b) = true ->
  fromJSON ctx (toJSON b) b0 = (b, None).
Proof.
  intros Ht Hc. destruct b as [t c]; simpl in *.
  unfold fromJSON, MsgBody_Unmarshaler, toJSON, MsgBody_Marshaler.
  cbn -[fromJSON toJSON].
  rewrite !string_roundTrip by assumption. reflexivity.
Qed.

Lemma Attachment_roundTrip (ctx : option json.errorContext) (a a0 : Attachment) :
  validAttachment a -> fromJSON ctx (toJSON a) a0 = (a, None).
Proof.
  intros (Hd & Hn & Ht & Hb). destruct a as [d n t b]; simpl in *.
  unfold fromJSON, Attachment_Unmarshaler, toJSON, Attachment_Marshaler.
  cbn -[fromJSON toJSON].
  rewrite !string_roundTrip by assumption. reflexivity.
Qed.

(** A slice comes back as it was, [nil] as [nil] and empty as empty, whatever
    the target held. *)
Lemma decodeElems_roundTrip {V} `{Marshaler V} `{Unmarshaler V}
    (valid : V -> Prop) (zero : V) (ctx : option json.errorContext) :
  (forall x x0, valid x -> fromJSON ctx (toJSON x) x0 = (x, None)) ->
  forall l old, Forall valid l ->
    decodeElems zero ctx (List.map toJSON l) old None = (l, None).
Proof.
  intros Hrt l. induction l as [|x l IH]; intros old Hl; [reflexivity|].
  inversion Hl as [|? ? Hx Hl']; subst.
  cbn [List.map decodeElems]. rewrite (Hrt x _ Hx). cbn [json.saveError].
  rewrite (IH _ Hl'). reflexivity.
Qed.

Lemma slice_roundTrip {V} `{Marshaler V} `{Unmarshaler V}
    (valid : V -> Prop) (goType : string) (zero : V)
    (ctx : option json.errorContext) (s s0 : slice V) :
  (forall x x0, valid x -> fromJSON ctx (toJSON x) x0 = (x, None)) ->
  Forall valid (elems s) ->
  decodeSlice goType zero ctx (encodeSlice s) s0 = (s, None).
Proof.
  intros Hrt Hs. destruct s as [|l]; [reflexivity|].
  cbn [encodeSlice decodeSlice].
  rewrite (decodeElems_roundTrip valid zero ctx Hrt l _ Hs). reflexivity.
Qed.

Lemma validMail_roundTrip (m : Mail) :
  validMail m -> roundTrip m = (m, None).
Proof.
  intros (Hs & Hbt & Hbc & Hto & Hcc & Hbcc & Hfrom & Hatt).
  destruct m as [[subj body to cc bcc from att]]; simpl in *.
  unfold roundTrip, fromJSON, Mail_Unmarshaler, toJSON, Mail_Marshaler.
  cbn -[fromJSON toJSON].
  unfold fromJSON at 1, Message_Unmarshaler, toJSON at 1, Message_Marshaler.
  cbn -[fromJSON toJSON].
  rewrite string_roundTrip by assumption.
  rewrite MsgBody_roundTrip by assumption.
  unfold fromJSON at 1, Recipients_Unmarshaler, toJSON at 1,
    Recipients_Marshaler.
  rewrite (slice_roundTrip validRecipient) by auto using Recipient_roundTrip.
  cbn -[fromJSON toJSON].
  unfold fromJSON at 1, Recipients_Unmarshaler, toJSON at 1,
    Recipients_Marshaler.
  rewrite (slice_roundTrip validRecipient) by auto using Recipient_roundTrip.
  cbn -[fromJSON toJSON].
  unfold fromJSON at 1, Recipients_Unmarshaler, toJSON at 1,
    Recipients_Marshaler.
  rewrite (slice_roundTrip validRecipient) by auto using Recipient_roundTrip.
  cbn -[fromJSON toJSON].
  rewrite Recipient_roundTrip by assumption.
  cbn -[fromJSON toJSON].
  unfold fromJSON at 1, Attachments_Unmarshaler, toJSON at 1,
    Attachments_Marshaler.
  rewrite (slice_roundTrip validAttachment) by auto using Attachment_roundTrip.
  reflexivity.
Qed.

End RoundTrip.

(** ** What the builder builds is well-formed *)

Section BuiltValid.

Lemma encodeStd_ascii7 (n : nat) (c : ascii) :
  String.get n Base64.encodeStd = Some c -> ascii7 c.
Proof.
  unfold Base64.encodeStd. intros Hget.
  do 64 (destruct n as [|n];
         [injection Hget as <-; reflexivity | cbn [String.get] in Hget]).
  discriminate.
Qed.

Lemma encode_ascii7 (v : Z) : ascii7 (Base64.encode v).
Proof.
  unfold Base64.encode.
  destruct (String.get _ _) as [c|] eqn:Hget.
  - eapply encodeStd_ascii7, Hget.
  - reflexivity.
Qed.

Lemma Encode_ascii7 (n : nat) :
  forall src, (length src <= n)%nat -> Forall ascii7 (Base64.Encode src).
Proof.
  induction n as [|n IH]; intros src Hlen.
  - destruct src; [constructor | simpl in Hlen; lia].
  - destruct src as [|s0 [|s1 [|s2 rest]]]; cbn [Base64.Encode].
    + constructor.
    + repeat constructor; try apply encode_ascii7.
    + repeat constructor; try apply encode_ascii7.
    + do 4 (constructor; [apply encode_ascii7|]).
      apply IH. simpl in Hlen. lia.
Qed.

Lemma ascii7_valid (l : list ascii) :
  Forall ascii7 l -> utf8.ValidString (string_of_list_ascii l) = true.
Proof.
  unfold utf8.ValidString.
  induction 1 as [|c l Hc Hl IH]; [reflexivity|].
  cbn [string_of_list_ascii utf8.validFrom utf8.runeSize].
  unfold ascii7 in Hc. rewrite Hc. exact IH.
Qed.

Lemma EncodeToString_valid (src : string) :
  utf8.ValidString (Base64.EncodeToString src) = true.
Proof.
  apply ascii7_valid. eapply Encode_ascii7. reflexivity.
Qed.

Lemma index_valid (l : list string) (i : nat) :
  Forall (fun s => utf8.ValidString s = true) l ->
  utf8.ValidString (index l i) = true.
Proof.
  intros Hl. unfold index. revert i.
  induction Hl as [|s l Hs Hl IH]; intros [|i]; simpl; auto.
Qed.

Lemma Forall_snoc {A} (P : A -> Prop) (l : list A) (x : A) :
  Forall P l -> P x -> Forall P (l ++ [x]).
Proof. intros Hl Hx. apply Forall_app. split; [exact Hl | repeat constructor; exact Hx]. Qed.

Lemma Built_valid (m : Mail) : Built m -> validMail m.
Proof.
  induction 1 as [ | | s m Hs _ IH | l m Hl _ IH | l m Hl _ IH | l m Hl _ IH
                   | l m Hl _ IH | t c m Ht Hc _ IH | n t c m Hn Ht _ IH ];
    try (destruct IH
           as (Hsubj & Hbt & Hbc & Hto & Hcc & Hbcc & [Hfn Hfa] & Hatt));
    try (pose proof (index_valid l 0 Hl) as Hl0;
         pose proof (index_valid l 1 Hl) as Hl1).
  - unfold validMail; simpl; repeat split; constructor.
  - unfold validMail; simpl; repeat split; constructor.
  - unfold validMail, validRecipient, validEmailAddress; simpl. tauto.
  - unfold AddRecipient.
    destruct (length l) as [|[|[|k]]]; unfold validMail; simpl;
      repeat apply conj; try assumption;
      apply Forall_snoc; try assumption; split; simpl; auto.
  - unfold CCRecipient.
    destruct (length l) as [|[|[|k]]]; unfold validMail; simpl;
      repeat apply conj; try assumption;
      apply Forall_snoc; try assumption; split; simpl; auto.
  - unfold BCCRecipient.
    destruct (length l) as [|[|[|k]]]; unfold validMail; simpl;
      repeat apply conj; try assumption;
      apply Forall_snoc; try assumption; split; simpl; auto.
  - unfold From.
    destruct (length l) as [|[|[|k]]]; unfold validMail; simpl;
      repeat apply conj; try assumption; simpl; auto.
  - unfold validMail, validRecipient, validEmailAddress; simpl. tauto.
  - unfold validMail; simpl; repeat apply conj; try assumption.
    apply Forall_snoc; [assumption|].
    repeat apply conj; simpl; auto using EncodeToString_valid.
Qed.

End BuiltValid.


Lemma Built_exampleMail : Built (exampleMail MakeMail).
Proof.
  unfold exampleMail.
  apply Built_AddFileAttachment; [reflexivity | reflexivity |].
  apply Built_Body; [reflexivity | reflexivity |].
  apply Built_AddRecipient; [repeat constructor |].
  apply Built_AddRecipient; [repeat constructor |].
  apply Built_MakeMail.
Defined.



(** * Properties of the client *)

Section ClientProperties.
Context `{Platform}.

Lemma append_assoc (a b c : string) : (a +:+ b) +:+ c = a +:+ b +:+ c.
Proof.
  induction a as [|x a IH]; [reflexivity|].
  change (String x ((a +:+ b) +:+ c) = String x (a +:+ b +:+ c)).
  f_equal. exact IH.
Qed.

Lemma contains_here (sub post : string) : contains sub (sub +:+ post).
Proof. exists "", post. reflexivity. Qed.

Lemma contains_after (pre sub s : string) :
  contains sub s -> contains sub (pre +:+ s).
Proof.
  intros (p & q & ->). exists (pre +:+ p), q. now rewrite append_assoc.
Qed.

Lemma run_bind {A B} (env : Env) (m : Prog A) (f : A -> Prog B) (w : World) :
  run env (m ≫= f) w
  = match run env m w with
    | Some (a, w') => run env (f a) w'
    | None => None
    end.
Proof.
  unfold mbind, Prog_bind. revert w.
  induction m as [a|X e k IH]; intros w; [reflexivity|].
  cbn [bind run].
  destruct (perform env e w) as [[x w']|]; [apply IH | reflexivity].
Qed.

Lemma requests_snoc (tr : list (bool * Event)) (ev : bool * Event) :
  requests (tr ++ [ev])
  = (requests tr ++ match snd ev with EvDo req => [req] | _ => [] end)%list.
Proof.
  unfold requests. rewrite omap_app. cbn.
  destruct (snd ev); reflexivity.
Qed.

(** Unfolds a run of the client's methods as far as the inputs decide it. *)
Ltac case_inner :=
  match goal with
  | |- context [decide ?P] => destruct (decide P)
  | |- context [match ?x with _ => _ end] =>
      lazymatch x with
      | context [match _ with _ => _ end] => fail
      | _ => destruct x eqn:?
      end
  end.

Ltac run_cases := cbn; repeat (case_inner; cbn).

Ltac trace_simpl :=
  rewrite ?requests_snoc; cbn; rewrite ?app_nil_r.

(** refreshToken always returns. *)
Lemma refreshToken_returns (env : Env) (w : World) :
  is_Some (run env refreshToken w).
Proof.
  unfold refreshToken, refreshToken_body, performRequest.
  run_cases; eauto.
Qed.

(** C2. When refreshToken returns an error, whatever the cause (empty tenant
    ID, URL that does not parse, request that cannot be built, transport
    failure, status outside 2xx, body that cannot be read or decoded), the
    client's token is the one it held before the call: the token is assigned
    only after performRequest has returned without error. *)
Theorem refreshToken_failure_keeps_token (env : Env) (w w' : World)
    (err : error) :
  run env refreshToken w = Some (err, w') ->
  err <> None ->
  token (client w') = token (client w).
Proof.
  unfold refreshToken, refreshToken_body, performRequest.
  run_cases; intros [= <- <-] Herr; cbn; congruence.
Qed.

(** C5, as the code has it. For a response [httpClient.Do] returned: with a
    status outside 200-299 the result is an error that contains the status
    code and the body text as read, and the caller's value is untouched; with
    a status inside and the body read, the result is exactly what
    [json.Unmarshal] of the body into the caller's value gives; with a status
    inside and a body that could not be read, the result is a read error that
    contains the cause, and the caller's value is untouched. The call itself
    does nothing but send the request. *)
Theorem performRequest_response {V} `{Unmarshaler V} (env : Env) (req : Request)
    (v : V) (resp : Response) (w : World) :
  network env req = DoResp resp ->
  exists r, run env (performRequest req v) w = Some (r, record (Do req) w)
    /\ ((StatusCode resp < 200 \/ 299 < StatusCode resp) ->
        fst r = v
        /\ exists msg, snd r = Some msg
             /\ contains (Itoa (StatusCode resp)) msg
             /\ contains (ReadAllBody resp) msg)
    /\ (200 <= StatusCode resp <= 299 -> ReadAllErr resp = None ->
        r = json_Unmarshal (ReadAllBody resp) v)
    /\ (200 <= StatusCode resp <= 299 ->
        forall cause, ReadAllErr resp = Some cause ->
        fst r = v /\ exists msg, snd r = Some msg /\ contains cause msg).
Proof.
  intros Hnet. unfold performRequest. cbn. rewrite Hnet.
  destruct ((StatusCode resp <? 200) || (StatusCode resp >? 299)) eqn:Hst.
  - eexists. split; [reflexivity|]. cbn. split; [|split].
    + intros _. split; [reflexivity|]. eexists. split; [reflexivity|]. split.
      * apply contains_after, contains_here.
      * do 3 apply contains_after. apply contains_here.
    + intros Hin. apply orb_true_iff in Hst. lia.
    + intros Hin. apply orb_true_iff in Hst. lia.
  - apply orb_false_iff in Hst.
    destruct (ReadAllErr resp) as [cause|] eqn:Hread.
    + eexists. split; [reflexivity|]. cbn. split; [|split].
      * lia.
      * discriminate.
      * intros _ c [= <-]. split; [reflexivity|].
        eexists. split; [reflexivity|].
        apply contains_after, contains_here.
    + eexists. split; [reflexivity|]. split; [|split].
      * lia.
      * reflexivity.
      * discriminate.
Qed.

(** C4. With tenant, application and secret all empty, NewGraphClient returns
    the empty-field error and sends no request; so does UnmarshalJSON for a
    document that decodes to three empty fields. *)
Theorem empty_identity_rejected (env : Env) (w : World) (data : string) :
  json_Unmarshal data (mkTmp "" "" "") = (mkTmp "" "" "", None) ->
  (exists w', run_NewGraphClient env "" "" "" = Some (Some "Tenant ID is empty", w')
     /\ requests (trace w') = [])
  /\ (exists w', run env (UnmarshalJSON data) w = Some (Some "TenantID is empty", w')
        /\ requests (trace w') = requests (trace w))
  /\ isConfigurationError (Some "Tenant ID is empty") = true
  /\ isConfigurationError (Some "TenantID is empty") = true.
Proof.
  intros Hdec. split; [|split; [|split; reflexivity]].
  - unfold run_NewGraphClient, NewGraphClient, refreshToken, refreshToken_body.
    cbn. eexists. split; reflexivity.
  - unfold UnmarshalJSON. rewrite Hdec. cbn.
    eexists. split; [reflexivity|]. cbn. trace_simpl. reflexivity.
Qed.

(** C10. NewGraphClient checks the tenant ID only: with a tenant ID that is
    not empty it returns no configuration error, whatever the application ID
    and the secret, empty ones included, and once the login URL parses and the
    request is built it sends the token request with the two fields as they
    are. UnmarshalJSON returns a configuration error and sends nothing as soon
    as one of the three decoded fields is empty. *)
Theorem NewGraphClient_checks_tenant_only (env : Env) (w : World)
    (tenantID applicationID clientSecret data : string) :
  tenantID <> "" ->
  (exists err w',
      run_NewGraphClient env tenantID applicationID clientSecret
      = Some (err, w')
      /\ isConfigurationError err = false
      /\ forall u u',
           url_ParseRequestURI LoginBaseURL = Ok u ->
           url_Parse (URL_String
                        (set_Path ("/" +:+ tenantID +:+ "/oauth2/token") u))
           = Ok u' ->
           exists req, requests (trace w') = [req]
             /\ Method req = "POST" /\ ReqURL req = u'
             /\ ReqBody req
                = Some (Values_Encode (grantForm applicationID clientSecret)))
  /\ forall tmp,
       json_Unmarshal data (mkTmp "" "" "") = (tmp, None) ->
       tmpTenantID tmp = "" \/ tmpApplicationID tmp = ""
       \/ tmpClientSecret tmp = "" ->
       exists err w',
         run env (UnmarshalJSON data) w = Some (err, w')
         /\ isConfigurationError err = true
         /\ requests (trace w') = requests (trace w).
Proof.
  intros Htenant. split.
  - unfold run_NewGraphClient, NewGraphClient, refreshToken, refreshToken_body,
      performRequest, http_NewRequest, NewGraphClient_literal, grantForm.
    run_cases; try contradiction;
      (eexists _, _; split; [reflexivity|]; split; [reflexivity|]);
      intros u0 u0' [= <-] Hu'; try congruence;
      cbn; eexists; (split; [reflexivity|]); simplify_eq; cbn;
      repeat split; congruence.
  - intros tmp Hdec Hempty. unfold UnmarshalJSON. rewrite Hdec.
    destruct tmp as [t a c]; cbn in Hempty.
    run_cases; try (eexists _, _; split; [reflexivity|];
                    split; [reflexivity|]; cbn; trace_simpl; reflexivity).
    all: exfalso; destruct Hempty as [?|[?|?]]; congruence.
Qed.

Lemma Values_Add_lookup (key value : string) (v : Values) :
  Values_Add key value v !! key
  = Some (default [] (v !! key) ++ [value])%list.
Proof. unfold Values_Add. apply lookup_insert_eq. Qed.

Lemma Values_Add_lookup_ne (key value k : string) (v : Values) :
  k <> key -> Values_Add key value v !! k = v !! k.
Proof. intros Hne. unfold Values_Add. apply lookup_insert_ne. congruence. Qed.

Lemma isAPIRequest_built (apicall : string) (getParams : option Values)
    (tok : Token) (u : URL) :
  Path u = "/" +:+ APIVersion +:+ apicall ->
  isAPIRequest apicall getParams tok
    (set_URL_RawQuery
       (Values_Encode
          (Values_Add "$top" (Itoa MaxPageSize)
             match getParams with
             | Some params => params
             | None => ∅
             end))
       (Header_Add "Authorization" (GetAccessToken tok)
          (Header_Add "Content-Type" "application/json"
             (mkRequest "GET" u ∅ None)))).
Proof.
  intros Hpath. unfold isAPIRequest. cbn.
  split; [reflexivity|]. split; [exact Hpath|]. split; [|split; [|split]].
  - eexists. split; [reflexivity|]. split.
    + rewrite Values_Add_lookup. destruct getParams; reflexivity.
    + intros k Hk. rewrite Values_Add_lookup_ne by exact Hk.
      destruct getParams; reflexivity.
  - rewrite lookup_insert_eq. rewrite lookup_insert_ne by discriminate.
    rewrite lookup_empty. reflexivity.
  - rewrite lookup_insert_ne by discriminate. rewrite lookup_insert_eq.
    rewrite lookup_empty. reflexivity.
  - reflexivity.
Qed.

Lemma run_bind_fix {A B} (env : Env) (m : Prog A) (f : A -> Prog B)
    (w : World) :
  run env (bind m f) w
  = match run env m w with
    | Some (a, w') => run env (f a) w'
    | None => None
    end.
Proof. apply run_bind. Qed.

(** What one execution of refreshToken does: it returns, its events start
    with its entry and hold no other, it sends nothing but POSTs, it leaves
    the mutex alone and the identity fields as they were, and on an error the
    token too. *)
Lemma run_refreshToken (env : Env) (w : World) :
  exists err g' evs,
    run env refreshToken w
    = Some (err, mkWorld g' (apiCall w)
                   (trace w ++ (apiCall w, EvEnter) :: evs))
    /\ refreshes evs = 0%nat
    /\ Forall (fun req => Method req = "POST") (requests evs)
    /\ (err <> None -> g' = client w)
    /\ (forall f, getField f g' = getField f (client w)).
Proof.
  destruct w as [g locked tr].
  unfold refreshToken, refreshToken_body, performRequest, http_NewRequest.
  run_cases; simplify_eq;
    (eexists _, _, _; split;
     [unfold record; cbn; rewrite <- !app_assoc; reflexivity|]; cbn;
     split; [reflexivity|]; split; [repeat constructor|];
     split; [intros Herr; solve [reflexivity | congruence]
            | intros []; reflexivity]).
Qed.

(** C3. Each call of makeGETAPICall takes the mutex, reads the token and the
    clock, and decides there: refreshToken runs, once, when the clock has
    reached the token's expiry minus the margin, and does not run when the
    clock is before that instant. *)
Theorem refresh_iff_stale {V} `{Unmarshaler V} (env : Env) (w : World)
    (apicall : string) (getParams : option Values) (v : V) :
  apiCall w = false ->
  exists r w' evs,
    run env (makeGETAPICall apicall getParams v) w = Some (r, w')
    /\ trace w' = (trace w ++ evs)%list
    /\ take 3 evs = [(false, EvLock); (true, EvLoadToken); (true, EvNow)]
    /\ (ExpiresOn (token (client w)) - margin <= clock env ->
        refreshes evs = 1%nat
        /\ evs !! 3%nat = Some (true, EvEnter))
    /\ (clock env < ExpiresOn (token (client w)) - margin ->
        refreshes evs = 0%nat).
Proof.
  intros Hidle. destruct w as [g locked tr]. cbn in Hidle. subst locked.
  unfold makeGETAPICall, performRequest, http_NewRequest, WantsToBeRefreshed.
  cbn -[refreshToken].
  destruct (ExpiresOn (token g) - margin <=? clock env) eqn:Hstale;
    [apply Z.leb_le in Hstale | apply Z.leb_gt in Hstale].
  - rewrite run_bind_fix, run_bind.
    match goal with
    | |- context [@run ?A env refreshToken ?w0] =>
        destruct (run_refreshToken env w0)
          as (err & g' & evs & Hrun & Hone & _ & _ & _);
        change (@run A env refreshToken w0)
          with (@run error env refreshToken w0);
        rewrite Hrun; clear Hrun
    end.
    destruct err as [msg|]; run_cases;
      (eexists _, _, _; split; [reflexivity|]; unfold record; cbn;
       split; [rewrite <- !app_assoc; reflexivity|]; cbn;
       split; [reflexivity|]; split; [|lia]; intros _;
       split; [|reflexivity]).
    all: unfold refreshes in *; cbn;
         rewrite List.filter_app, length_app, Hone; reflexivity.
  - run_cases;
      (eexists _, _, _; split; [reflexivity|]; unfold record; cbn;
       split; [rewrite <- !app_assoc; reflexivity|]; cbn;
       split; [reflexivity|]; split; [lia|]; intros _; reflexivity).
Qed.


End ClientProperties.

(** * The theorems at work on the small platform *)

(** C5 as stated fails on a response with status 200 whose body cannot be
    read to its end: the claim has performRequest decode the body and return
    the decoder's error, which is nil for the bytes read here; the code
    returns the read error and decodes nothing. *)
Lemma performRequest_unread_body :
  exists r w',
    run breaking (@performRequest Toy.platform _ _ aRequest (mkTmp "" "" ""))
        (idle Toy.aClient) = Some (r, w')
    /\ 200 <= StatusCode brokenBody <= 299
    /\ @json_Unmarshal Toy.platform _ _ (ReadAllBody brokenBody) (mkTmp "" "" "")
       = (mkTmp "" "" "", None)
    /\ snd r <> None.
Proof.
  eexists _, _. split; [vm_compute; reflexivity|].
  split; [vm_compute; split; discriminate|].
  split; [vm_compute; reflexivity | discriminate].
Qed.

Lemma performRequest_response_witness :
  exists r,
    run (mkEnv 0 Toy.failing)
        (@performRequest Toy.platform _ _ aRequest (mkTmp "" "" ""))
        (idle Toy.aClient)
    = Some (r, record (Do aRequest) (idle Toy.aClient))
    /\ fst r = mkTmp "" "" ""
    /\ exists msg, snd r = Some msg /\ contains "500" msg
                   /\ contains "server error" msg.
Proof.
  destruct (@performRequest_response Toy.platform _ _ (mkEnv 0 Toy.failing)
              aRequest (mkTmp "" "" "") (mkResponse 500 "server error" None)
              (idle Toy.aClient) eq_refl)
    as (r & Hrun & Hbad & _ & _).
  exists r. split; [exact Hrun|].
  apply Hbad. right. reflexivity.
Defined.

Lemma refreshToken_failure_keeps_token_witness :
  exists err w',
    run (mkEnv 0 Toy.failing) (@refreshToken Toy.platform) (idle Toy.aClient)
    = Some (err, w')
    /\ err <> None
    /\ token (client w') = mkToken "Bearer old" 500.
Proof.
  eexists _, _. split; [vm_compute; reflexivity|].
  split; [discriminate|].
  eapply (@refreshToken_failure_keeps_token Toy.platform (mkEnv 0 Toy.failing)
            (idle Toy.aClient));
    [vm_compute; reflexivity | discriminate].
Defined.

Lemma refresh_iff_stale_witness :
  exists r w' evs,
    run (Toy.env 489)
        (@makeGETAPICall Toy.platform _ _ "/users" None (mkTmp "" "" ""))
        (idle Toy.aClient) = Some (r, w')
    /\ trace w' = evs
    /\ refreshes evs = 0%nat.
Proof.
  destruct (@refresh_iff_stale Toy.platform _ _ (Toy.env 489)
              (idle Toy.aClient) "/users" None (mkTmp "" "" "") eq_refl)
    as (r & w' & evs & Hrun & Htrace & _ & _ & Hfresh).
  exists r, w', evs. split; [exact Hrun|]. split; [exact Htrace|].
  apply Hfresh. reflexivity.
Defined.

Lemma empty_identity_rejected_witness :
  (exists w',
      @run_NewGraphClient Toy.platform (Toy.env 0) "" "" ""
      = Some (Some "Tenant ID is empty", w')
      /\ requests (trace w') = [])
  /\ (exists w',
        run (Toy.env 0) (@UnmarshalJSON Toy.platform Toy.emptyDocument)
            (idle Toy.aClient) = Some (Some "TenantID is empty", w')
        /\ requests (trace w') = []).
Proof.
  destruct (@empty_identity_rejected Toy.platform (Toy.env 0)
              (idle Toy.aClient) Toy.emptyDocument eq_refl)
    as (Hnew & Hjson & _).
  split; [exact Hnew | exact Hjson].
Defined.


Lemma NewGraphClient_checks_tenant_only_witness :
  (exists err w',
      @run_NewGraphClient Toy.platform (Toy.env 0) "tenant" "" ""
      = Some (err, w')
      /\ isConfigurationError err = false
      /\ exists req, requests (trace w') = [req] /\ Method req = "POST")
  /\ (exists err w',
        run (Toy.env 0) (@UnmarshalJSON Toy.platform Toy.emptyDocument)
            (idle Toy.aClient) = Some (err, w')
        /\ isConfigurationError err = true
        /\ requests (trace w') = []).
Proof.
  destruct (@NewGraphClient_checks_tenant_only Toy.platform (Toy.env 0)
              (idle Toy.aClient) "tenant" "" "" Toy.emptyDocument)
    as ((err & w' & Hrun & Hcfg & Hsent) & Hjson); [discriminate|].
  split.
  - exists err, w'. split; [exact Hrun|]. split; [exact Hcfg|].
    destruct (Hsent (mkURL "https" "login.microsoftonline.com" "" "")
                (mkURL "https" "login.microsoftonline.com"
                       "/tenant/oauth2/token" "") eq_refl eq_refl)
      as (req & Hreqs & Hmethod & _).
    exists req. split; assumption.
  - apply (Hjson (mkTmp "" "" "")); [reflexivity | left; reflexivity].
Defined.

(** * Goroutines and the mutex *)

Section Discipline.
Context `{Platform}.

Lemma passes_bind {A B} (m : Prog A) (f : A -> Prog B)
    (Q : B -> bool -> nat -> Prop) :
  forall held depth,
    passes held depth m (fun a h d => passes h d (f a) Q) ->
    passes held depth (bind m f) Q.
Proof.
  induction m as [a|X e k IH]; intros held depth Hm; [exact Hm|].
  cbn [bind passes] in *.
  destruct (gate e held depth) as [[h' d']|]; [|exact Hm].
  intros x. apply IH, Hm.
Qed.

Lemma passes_impl {A} (p : Prog A) (Q Q' : A -> bool -> nat -> Prop) :
  (forall a h d, Q a h d -> Q' a h d) ->
  forall held depth, passes held depth p Q -> passes held depth p Q'.
Proof.
  intros HQ. induction p as [a|X e k IH]; intros held depth Hp.
  - apply HQ, Hp.
  - cbn [passes] in *. destruct (gate e held depth) as [[h' d']|]; [|exact Hp].
    intros x. apply IH, Hp.
Qed.

Ltac gate_cases :=
  repeat (cbn; intros;
          try match goal with
              | |- context [decide ?P] => destruct (decide P)
              | |- context [match ?x with _ => _ end] =>
                  lazymatch x with
                  | context [match _ with _ => _ end] => fail
                  | _ => destruct x
                  end
              end).

(** Called with the mutex held, refreshToken keeps it held and is left by the
    time it returns. *)
Lemma refreshToken_passes :
  passes true 0 refreshToken (fun _ h d => h = true /\ d = 0%nat).
Proof.
  unfold refreshToken, refreshToken_body, performRequest, http_NewRequest.
  gate_cases; auto.
Qed.

Lemma makeGETAPICall_gated {V} `{Unmarshaler V} (apicall : string)
    (getParams : option Values) (v : V) :
  gated false 0 (makeGETAPICall apicall getParams v).
Proof.
  unfold gated, makeGETAPICall, performRequest, http_NewRequest.
  cbn -[refreshToken]. intros _ tok now.
  apply passes_bind.
  destruct (WantsToBeRefreshed tok now).
  - cbn -[refreshToken]. apply passes_bind.
    eapply passes_impl; [|apply refreshToken_passes].
    intros err h d [-> ->]. gate_cases; auto.
  - gate_cases; auto.
Qed.

Lemma NewGraphClient_gated : gated false 0 NewGraphClient.
Proof.
  unfold gated, NewGraphClient. cbn -[refreshToken]. intros _.
  apply passes_bind.
  eapply passes_impl; [|apply refreshToken_passes].
  intros err h d [-> ->]. gate_cases; auto.
Qed.

End Discipline.

Section Interleavings.

Lemma inflight_snoc (tr : list (bool * Event)) (ev : bool * Event) :
  forall n,
    inflight n (tr ++ [ev])
    = if entersRefresh ev then S (inflight n tr)
      else if leavesRefresh ev then pred (inflight n tr)
      else inflight n tr.
Proof.
  induction tr as [|e tr IH]; intros n; cbn [app inflight].
  - reflexivity.
  - destruct (entersRefresh e); [apply IH|].
    destruct (leavesRefresh e); apply IH.
Qed.

Lemma peak_snoc (tr : list (bool * Event)) (ev : bool * Event) :
  forall n,
    peak n (tr ++ [ev]) = Nat.max (peak n tr) (inflight n (tr ++ [ev])).
Proof.
  induction tr as [|e tr IH]; intros n; cbn [app inflight peak].
  - destruct (entersRefresh ev); [lia|].
    destruct (leavesRefresh ev); lia.
  - destruct (entersRefresh e); [rewrite IH; lia|].
    destruct (leavesRefresh e); rewrite IH; lia.
Qed.

Lemma perform_trace {X} (env : Env) (e : Eff X) (w w' : World) (x : X) :
  perform env e w = Some (x, w') ->
  trace w' = (trace w ++ [(apiCall w, eventOf e)])%list.
Proof.
  destruct w as [g [|] tr];
    destruct e; cbn; intros [= <- <-] || intros [= <-] || discriminate;
    reflexivity.
Qed.

(** A step of the goroutine that holds the mutex. *)
Lemma perform_holder {X} (env : Env) (e : Eff X) (w w' : World) (x : X)
    (d : nat) (h' : bool) (d' : nat) :
  perform env e w = Some (x, w') ->
  gate e true d = Some (h', d') ->
  apiCall w = true -> inflight 0 (trace w) = d -> (d <= 1)%nat ->
  apiCall w' = h' /\ inflight 0 (trace w') = d' /\ (d' <= 1)%nat
  /\ (h' = false -> d' = 0%nat).
Proof.
  intros Hperf Hgate Hheld Hin Hle.
  pose proof (perform_trace env e w w' x Hperf) as Htr.
  rewrite Htr, inflight_snoc, Hin.
  destruct e; cbn in *; rewrite ?Hheld in Hperf;
    try discriminate;
    try (destruct d as [|[|d]]; cbn in Hgate; try discriminate; try lia);
    simplify_eq; cbn;
    repeat split; try reflexivity; try lia; try discriminate; try assumption.
Qed.

(** A step of a goroutine that does not hold the mutex: it takes it. *)
Lemma perform_outsider {X} (env : Env) (e : Eff X) (w w' : World) (x : X)
    (h' : bool) (d' : nat) :
  perform env e w = Some (x, w') ->
  gate e false 0 = Some (h', d') ->
  apiCall w = false /\ apiCall w' = true /\ h' = true /\ d' = 0%nat
  /\ inflight 0 (trace w') = inflight 0 (trace w).
Proof.
  intros Hperf Hgate.
  pose proof (perform_trace env e w w' x Hperf) as Htr.
  rewrite Htr, inflight_snoc.
  destruct e; cbn in *; try discriminate.
  destruct (apiCall w); [discriminate|].
  simplify_eq. repeat split; reflexivity.
Qed.

Lemma cstep_disciplined (env : Env) (i : nat) (c c' : World * Pool) :
  disciplined c -> cstep env i c = Some c' -> disciplined c'.
Proof.
  destruct c as [w pool]. unfold cstep. cbn [fst snd]. intros Hd Hstep.
  destruct (pool !! i) as [[a|X e k]|] eqn:Hi; try discriminate.
  destruct (perform env e w) as [[x w']|] eqn:Hperf; [|discriminate].
  injection Hstep as <-.
  pose proof (lookup_lt_Some _ _ _ Hi) as Hlt.
  unfold disciplined in *.
  destruct (apiCall w) eqn:Hheld.
  - destruct Hd as (i0 & d & p & Hp & Hgp & Hin & Hle & Hothers).
    destruct (decide (i = i0)) as [->|Hne].
    + rewrite Hi in Hp. injection Hp as <-.
      unfold gated in Hgp. cbn [passes] in Hgp.
      destruct (gate e true d) as [[h' d']|] eqn:Hgate; [|contradiction].
      destruct (perform_holder env e w w' x d h' d' Hperf Hgate Hheld Hin Hle)
        as (-> & Hin' & Hle' & Hzero).
      destruct h'.
      * exists i0, d', (k x). split; [apply list_lookup_insert_eq, Hlt|].
        split; [apply Hgp|]. split; [exact Hin'|]. split; [exact Hle'|].
        intros j q Hj. rewrite list_lookup_insert_ne by congruence.
        apply Hothers, Hj.
      * specialize (Hzero eq_refl). rewrite Hzero in *.
        split; [exact Hin'|].
        apply Forall_lookup. intros j q.
        destruct (decide (j = i0)) as [->|Hj].
        -- rewrite list_lookup_insert_eq by exact Hlt. intros [= <-].
           apply Hgp.
        -- rewrite list_lookup_insert_ne by congruence. apply Hothers, Hj.
    + pose proof (Hothers i _ Hne Hi) as Hgi.
      unfold gated in Hgi. cbn [passes] in Hgi.
      destruct (gate e false 0) as [[h' d']|] eqn:Hgate; [|contradiction].
      destruct (perform_outsider env e w w' x h' d' Hperf Hgate)
        as (Hfree & _). congruence.
  - destruct Hd as [Hin Hall].
    pose proof (proj1 (Forall_lookup _ _) Hall i _ Hi) as Hgi.
    unfold gated in Hgi. cbn [passes] in Hgi.
    destruct (gate e false 0) as [[h' d']|] eqn:Hgate; [|contradiction].
    destruct (perform_outsider env e w w' x h' d' Hperf Hgate)
      as (_ & -> & -> & -> & Hin').
    exists i, 0%nat, (k x). split; [apply list_lookup_insert_eq, Hlt|].
    split; [apply Hgi|]. split; [congruence|]. split; [lia|].
    intros j q Hj. rewrite list_lookup_insert_ne by congruence.
    intros Hq. apply (proj1 (Forall_lookup _ _) Hall j _ Hq).
Qed.

Lemma disciplined_inflight (c : World * Pool) :
  disciplined c -> (inflight 0 (trace (fst c)) <= 1)%nat.
Proof.
  destruct c as [w pool]. unfold disciplined. cbn [fst].
  destruct (apiCall w).
  - intros (i & d & p & _ & _ & -> & Hle & _). exact Hle.
  - intros [-> _]. lia.
Qed.

Lemma cstep_trace (env : Env) (i : nat) (c c' : World * Pool) :
  cstep env i c = Some c' ->
  exists ev, trace (fst c') = (trace (fst c) ++ [ev])%list.
Proof.
  destruct c as [w pool]. unfold cstep. cbn [fst snd].
  destruct (pool !! i) as [[a|X e k]|]; try discriminate.
  destruct (perform env e w) as [[x w']|] eqn:Hperf; [|discriminate].
  intros [= <-]. cbn [fst]. eexists. eapply perform_trace, Hperf.
Qed.

Lemma schedule_disciplined (env : Env) (sched : list nat) :
  forall c c',
    disciplined c -> (peak 0 (trace (fst c)) <= 1)%nat ->
    schedule env sched c = Some c' ->
    disciplined c' /\ (peak 0 (trace (fst c')) <= 1)%nat.
Proof.
  induction sched as [|i sched IH]; intros c c' Hd Hpeak Hs; cbn in Hs.
  - injection Hs as <-. split; assumption.
  - destruct (cstep env i c) as [c1|] eqn:Hstep; [|discriminate].
    pose proof (cstep_disciplined env i c c1 Hd Hstep) as Hd1.
    destruct (cstep_trace env i c c1 Hstep) as [ev Htr].
    apply (IH c1 c' Hd1); [|exact Hs].
    pose proof (disciplined_inflight c1 Hd1) as Hin.
    rewrite Htr in *. rewrite peak_snoc. lia.
Qed.

End Interleavings.

Section Serialised.
Context `{Platform}.

Lemma lockedCall_gated (p : Prog error) : lockedCall p -> gated false 0 p.
Proof.
  intros [V HV apicall getParams v|].
  - unfold errorOf, gated. apply passes_bind.
    eapply passes_impl; [|apply makeGETAPICall_gated].
    intros r h d Hr. exact Hr.
  - apply NewGraphClient_gated.
Qed.


End Serialised.

(** C1 at its failing input. While a goroutine refreshes the stale token
    inside makeGETAPICall, holding the mutex, a goroutine in UnmarshalJSON
    starts refreshToken too: two executions are in flight. On its own,
    UnmarshalJSON stores the new token with the mutex free; it does not keep
    the discipline the other two callers of refreshToken keep. *)
Theorem UnmarshalJSON_races_refresh :
  (exists w,
      fst <$> schedule (Toy.env 495) raceSchedule (idle Toy.aClient, racing)
      = Some w
      /\ apiCall w = true
      /\ inflight 0 (trace w) = 2%nat /\ peak 0 (trace w) = 2%nat)
  /\ (exists w',
        run (Toy.env 495) (@UnmarshalJSON Toy.platform Toy.configDocument)
            (idle Toy.aClient) = Some (None, w')
        /\ existsb unguarded (trace w') = true)
  /\ ~ gated false 0 (@UnmarshalJSON Toy.platform Toy.configDocument).
Proof.
  split; [|split].
  - eexists. split; [vm_compute; reflexivity|].
    split; [reflexivity|]. split; vm_compute; reflexivity.
  - eexists. split; vm_compute; reflexivity.
  - unfold gated, UnmarshalJSON. cbn. exact (fun Hg => Hg).
Qed.


(** * More on the mail builder *)

Section BuilderCalls.

Lemma entryOf_length (args : list string) :
  entryOf args
  = match length args with
    | 1%nat => Some (mkRecipient (mkEmailAddress "" (index args 0)))
    | 2%nat => Some (mkRecipient (mkEmailAddress (index args 1) (index args 0)))
    | _ => None
    end.
Proof. destruct args as [|a [|n [|x rest]]]; reflexivity. Qed.

(** X2. CCRecipient, BCCRecipient and From called with no argument or with
    three or more return their argument-count error and leave the mail as it
    was. *)
Theorem sibling_argument_count (args : list string) (m : Mail) :
  (length args = 0 \/ 3 <= length args)%nat ->
  CCRecipient args m = (m, Some "CCRecipient() only accepts 1-2 arguments")
  /\ BCCRecipient args m
     = (m, Some "BCCRecipient() only accepts 1-2 arguments")
  /\ From args m = (m, Some "From() only accepts 1-2 arguments").
Proof.
  intros Hlen. unfold CCRecipient, BCCRecipient, From.
  destruct args as [|a [|b [|c rest]]]; simpl in *;
    solve [repeat split; reflexivity | lia].
Qed.

Lemma sibling_argument_count_witness :
  CCRecipient [] MakeMail
  = (MakeMail, Some "CCRecipient() only accepts 1-2 arguments")
  /\ BCCRecipient [] MakeMail
     = (MakeMail, Some "BCCRecipient() only accepts 1-2 arguments")
  /\ From [] MakeMail = (MakeMail, Some "From() only accepts 1-2 arguments").
Proof.
  apply (sibling_argument_count [] MakeMail). left. reflexivity.
Defined.

(** What one call does to each field of the message. *)
Lemma applyOp_fields (o : Op) (m : Mail) :
  let g := message m in
  let g' := message (applyOp o m) in
  elems (ToRecipients g')
  = (elems (ToRecipients g) ++ option_list (toOf o))%list
  /\ elems (CcRecipients g')
     = (elems (CcRecipients g) ++ option_list (ccOf o))%list
  /\ elems (BccRecipients g')
     = (elems (BccRecipients g) ++ option_list (bccOf o))%list
  /\ elems (Attachments g')
     = (elems (Attachments g) ++ option_list (attachmentOf o))%list
  /\ MsgSubject g' = default (MsgSubject g) (subjectOf o)
  /\ MsgBodyOf g' = default (MsgBodyOf g) (bodyOf o)
  /\ MsgFrom g' = default (MsgFrom g) (fromOf o).
Proof.
  destruct m as [g].
  destruct o as [s|l|l|l|l|t c|n t c]; cbn [applyOp toOf ccOf bccOf fromOf
    subjectOf bodyOf attachmentOf];
    try (unfold AddRecipient, CCRecipient, BCCRecipient, From;
         destruct l as [|a [|b [|x rest]]]);
    cbn; rewrite ?app_nil_r; repeat split; reflexivity.
Qed.

Lemma last_cons_default {A} (x : A) (l : list A) (d : A) :
  default d (last (x :: l)) = default x (last l).
Proof.
  revert x d. induction l as [|y l IH]; intros x d; [reflexivity|].
  change (last (x :: y :: l)) with (last (y :: l)).
  rewrite (IH y d), (IH y x). reflexivity.
Qed.

Lemma lastSet_cons {A} (f : Op -> option A) (o : Op) (ops : list Op)
    (initial : A) :
  lastSet f (o :: ops) initial = lastSet f ops (default initial (f o)).
Proof.
  unfold lastSet. cbn [omap list_omap]. destruct (f o) as [x|]; cbn.
  - apply last_cons_default.
  - reflexivity.
Qed.

(** X3. After any sequence of builder calls, each of the four lists of the
    message is the list it was, followed by one entry for every accepted call
    of its method, in the order of the calls; a call with a wrong number of
    arguments, and every call of another method, adds nothing to it. *)
Theorem build_lists (ops : list Op) (m0 : Mail) :
  let g0 := message m0 in
  let g := message (build ops m0) in
  elems (ToRecipients g) = (elems (ToRecipients g0) ++ omap toOf ops)%list
  /\ elems (CcRecipients g) = (elems (CcRecipients g0) ++ omap ccOf ops)%list
  /\ elems (BccRecipients g)
     = (elems (BccRecipients g0) ++ omap bccOf ops)%list
  /\ elems (Attachments g)
     = (elems (Attachments g0) ++ omap attachmentOf ops)%list.
Proof.
  revert m0. induction ops as [|o ops IH]; intros m0; cbn zeta.
  - cbn. rewrite !app_nil_r. repeat split; reflexivity.
  - change (build (o :: ops) m0) with (build ops (applyOp o m0)).
    destruct (IH (applyOp o m0)) as (Hto & Hcc & Hbcc & Hatt).
    destruct (applyOp_fields o m0) as (Hto' & Hcc' & Hbcc' & Hatt' & _).
    cbn zeta in *. rewrite Hto, Hcc, Hbcc, Hatt, Hto', Hcc', Hbcc', Hatt'.
    cbn [omap list_omap].
    destruct (toOf o), (ccOf o), (bccOf o), (attachmentOf o); cbn;
      rewrite <- ?app_assoc; cbn; rewrite ?app_nil_r;
      repeat split; reflexivity.
Qed.

(** X4. After any sequence of builder calls, the subject and the body are
    those of the last Subject and Body call, and the sender is the one of the
    last From call that had one or two arguments; without such a call the
    field is what it was. *)
Theorem build_last_wins (ops : list Op) (m0 : Mail) :
  let g0 := message m0 in
  let g := message (build ops m0) in
  MsgSubject g = lastSet subjectOf ops (MsgSubject g0)
  /\ MsgBodyOf g = lastSet bodyOf ops (MsgBodyOf g0)
  /\ MsgFrom g = lastSet fromOf ops (MsgFrom g0).
Proof.
  revert m0. induction ops as [|o ops IH]; intros m0; cbn zeta.
  - repeat split; reflexivity.
  - change (build (o :: ops) m0) with (build ops (applyOp o m0)).
    destruct (IH (applyOp o m0)) as (Hs & Hb & Hf).
    destruct (applyOp_fields o m0) as (_ & _ & _ & _ & Hs' & Hb' & Hf').
    cbn zeta in *. rewrite !lastSet_cons, Hs, Hb, Hf, Hs', Hb', Hf'.
    repeat split; reflexivity.
Qed.

(** One call makes a nil recipient list a list only if it is an accepted
    AddRecipient. *)
Lemma applyOp_nil (o : Op) (m : Mail) :
  ToRecipients (message (applyOp o m)) = SliceNil
  <-> ToRecipients (message m) = SliceNil /\ toOf o = None.
Proof.
  destruct m as [g].
  destruct o as [s|l|l|l|l|t c|n t c]; cbn [applyOp toOf];
    try (unfold AddRecipient, CCRecipient, BCCRecipient, From;
         destruct l as [|a [|b [|x rest]]]);
    cbn; split; solve [intros [? ?]; auto; discriminate | auto | discriminate].
Qed.

(** Two mails that differ at most in that the recipient list of the first is
    nil where the second's is empty differ at most so after the same call. *)
Lemma applyOp_made (o : Op) (m1 m2 : Mail) :
  message m2
  = set_ToRecipients (Slice (elems (ToRecipients (message m1)))) (message m1) ->
  message (applyOp o m2)
  = set_ToRecipients (Slice (elems (ToRecipients (message (applyOp o m1)))))
                     (message (applyOp o m1)).
Proof.
  destruct m1 as [g1], m2 as [g2]. cbn [message]. intros ->.
  destruct g1 as [subj body to cc bcc from att].
  destruct o as [s|l|l|l|l|t c|n t c]; cbn [applyOp];
    try (unfold AddRecipient, CCRecipient, BCCRecipient, From;
         destruct l as [|a [|b [|x rest]]]);
    reflexivity.
Qed.

Lemma build_nil (ops : list Op) (m : Mail) :
  ToRecipients (message (build ops m)) = SliceNil
  <-> ToRecipients (message m) = SliceNil /\ omap toOf ops = [].
Proof.
  revert m. induction ops as [|o ops IH]; intros m.
  - cbn. tauto.
  - change (build (o :: ops) m) with (build ops (applyOp o m)).
    rewrite IH, applyOp_nil. cbn [omap list_omap].
    destruct (toOf o); cbn; split; intros Hx;
      solve [tauto | destruct Hx as [[? ?] ?]; discriminate
            | destruct Hx as [? ?]; discriminate].
Qed.

Lemma build_made (ops : list Op) (m1 m2 : Mail) :
  message m2
  = set_ToRecipients (Slice (elems (ToRecipients (message m1)))) (message m1) ->
  message (build ops m2)
  = set_ToRecipients (Slice (elems (ToRecipients (message (build ops m1)))))
                     (message (build ops m1)).
Proof.
  revert m1 m2. induction ops as [|o ops IH]; intros m1 m2 Hm; [exact Hm|].
  change (build (o :: ops) m1) with (build ops (applyOp o m1)).
  change (build (o :: ops) m2) with (build ops (applyOp o m2)).
  apply IH, applyOp_made, Hm.
Qed.

(** X5. NewMail and MakeMail differ in one point, and the same builder calls
    keep it so: the mail built on MakeMail is the mail built on NewMail with a
    recipient list that is never nil. The list of the mail built on NewMail
    stays nil exactly as long as no AddRecipient call was accepted; from the
    first accepted call on the two mails are equal. Until then
    [toRecipients] is [null] in the JSON of the one and the empty array in
    the JSON of the other. *)
Theorem NewMail_recipients_nil (ops : list Op) :
  let a := build ops NewMail in
  let b := build ops MakeMail in
  message b
  = set_ToRecipients (Slice (elems (ToRecipients (message a)))) (message a)
  /\ (ToRecipients (message a) = SliceNil <-> omap toOf ops = [])
  /\ (omap toOf ops <> [] -> a = b)
  /\ (omap toOf ops = [] ->
      toJSON (ToRecipients (message a)) = JNull
      /\ toJSON (ToRecipients (message b)) = JArray []).
Proof.
  cbn zeta.
  pose proof (build_made ops NewMail MakeMail eq_refl) as Hmade.
  pose proof (build_nil ops NewMail) as Hnil.
  split; [exact Hmade|]. split; [|split].
  - rewrite Hnil. cbn. tauto.
  - intros Hsome.
    destruct (build ops NewMail) as [ga], (build ops MakeMail) as [gb].
    cbn [message] in *. rewrite Hmade. f_equal.
    destruct ga as [subj body to cc bcc from att]. cbn in *.
    destruct to as [|l]; [|reflexivity].
    exfalso. apply Hsome, Hnil. reflexivity.
  - intros Hnone. rewrite Hmade.
    assert (ToRecipients (message (build ops NewMail)) = SliceNil) as ->
      by (apply Hnil; split; [reflexivity | exact Hnone]).
    split; reflexivity.
Qed.

(** The length of the encoding: four bytes for every three of the source,
    the last group padded. *)
Lemma Encode_length (n : nat) :
  forall src, (length src <= n)%nat ->
    length (Base64.Encode src) = (4 * ((length src + 2) / 3))%nat.
Proof.
  induction n as [|n IH]; intros src Hlen.
  - destruct src; [reflexivity | simpl in Hlen; lia].
  - destruct src as [|s0 [|s1 [|s2 rest]]]; cbn [Base64.Encode length];
      try reflexivity.
    rewrite IH by (simpl in Hlen; lia).
    replace (S (S (S (length rest))) + 2)%nat
      with (1 * 3 + (length rest + 2))%nat by lia.
    rewrite Nat.div_add_l by lia. lia.
Qed.

Lemma string_of_list_ascii_length (l : list ascii) :
  String.length (string_of_list_ascii l) = length l.
Proof. induction l as [|c l IH]; cbn; [reflexivity | now rewrite IH]. Qed.

Lemma list_ascii_of_string_length (s : string) :
  length (list_ascii_of_string s) = String.length s.
Proof. induction s as [|c s IH]; cbn; [reflexivity | now rewrite IH]. Qed.

End BuilderCalls.

(** * More on the client *)

Section ClientCalls.
Context `{Platform}.

Ltac case_inner :=
  match goal with
  | |- context [decide ?P] => destruct (decide P)
  | |- context [match ?x with _ => _ end] =>
      lazymatch x with
      | context [match _ with _ => _ end] => fail
      | _ => destruct x eqn:?
      end
  end.

Ltac run_cases := cbn; repeat (case_inner; cbn).

Ltac stores_cases :=
  repeat (cbn; first [exact I | split | intros ? | case_inner]).

(** A method that keeps the discipline of the mutex returns, in a state the
    discipline ends in. *)
Lemma passes_run {A} (env : Env) (p : Prog A) (Q : A -> bool -> nat -> Prop) :
  forall held depth w,
    passes held depth p Q -> apiCall w = held ->
    exists a w' depth', run env p w = Some (a, w') /\ Q a (apiCall w') depth'.
Proof.
  induction p as [a|X e k IH]; intros held depth w Hp Hw.
  - exists a, w, depth. split; [reflexivity|]. rewrite Hw. exact Hp.
  - cbn [passes] in Hp. cbn [run].
    destruct (gate e held depth) as [[h' d']|] eqn:Hgate; [|contradiction].
    assert (exists x w1, perform env e w = Some (x, w1) /\ apiCall w1 = h')
      as (x & w1 & Hperf & Hw1).
    { destruct w as [g b tr]. cbn in Hw. subst b.
      destruct e; cbn in Hgate |- *; destruct held; cbn in *;
        try discriminate;
        try (destruct (Nat.eqb depth _); try discriminate);
        simplify_eq; eauto. }
    rewrite Hperf. eapply IH; [apply Hp | exact Hw1].
Qed.

Lemma storesNothing_bind {A B} (m : Prog A) (f : A -> Prog B) :
  storesNothing m -> (forall a, storesNothing (f a)) ->
  storesNothing (bind m f).
Proof.
  intros Hm Hf. induction m as [a|X e k IH]; [apply Hf|].
  cbn [bind storesNothing] in *. destruct Hm as [He Hk].
  split; [exact He|]. intros x. apply IH, Hk.
Qed.

(** A method that assigns no identity field returns with the three as they
    were. *)
Lemma storesNothing_run {A} (env : Env) (p : Prog A) :
  forall w a w',
    storesNothing p -> run env p w = Some (a, w') ->
    forall f, getField f (client w') = getField f (client w).
Proof.
  induction p as [a0|X e k IH]; intros w a w' Hp Hrun f.
  - cbn in Hrun. simplify_eq. reflexivity.
  - cbn [storesNothing run] in *. destruct Hp as [He Hk].
    destruct (perform env e w) as [[x w1]|] eqn:Hperf; [|discriminate].
    rewrite (IH x w1 a w' (Hk x) Hrun f).
    destruct w as [g b tr].
    destruct e; cbn in Hperf; try contradiction;
      try (destruct b; try discriminate); simplify_eq; cbn;
      try reflexivity; destruct f; reflexivity.
Qed.

Lemma refreshToken_storesNothing : storesNothing refreshToken.
Proof.
  unfold refreshToken, refreshToken_body, performRequest, http_NewRequest.
  stores_cases.
Qed.

Lemma makeGETAPICall_storesNothing {V} `{Unmarshaler V} (apicall : string)
    (getParams : option Values) (v : V) :
  storesNothing (makeGETAPICall apicall getParams v).
Proof.
  unfold makeGETAPICall, performRequest, http_NewRequest.
  cbn -[refreshToken]. split; [exact I|]. intros _.
  split; [exact I|]. intros tok. split; [exact I|]. intros now.
  apply storesNothing_bind; [|intros r; stores_cases].
  destruct (WantsToBeRefreshed tok now).
  - cbn -[refreshToken]. apply storesNothing_bind.
    + apply refreshToken_storesNothing.
    + intros err. stores_cases.
  - stores_cases.
Qed.

Lemma storesNothing_then {A B} (p : Prog A) (f : A -> B) :
  storesNothing p -> storesNothing (bind p (fun r => Ret (f r))).
Proof. intros Hp. apply storesNothing_bind; [exact Hp | intros r; exact I]. Qed.

Lemma NewGraphClient_storesNothing : storesNothing NewGraphClient.
Proof.
  unfold NewGraphClient. cbn -[refreshToken]. split; [exact I|]. intros _.
  apply storesNothing_bind; [apply refreshToken_storesNothing|].
  intros err. stores_cases.
Qed.

Lemma apiMethod_storesNothing (p : Prog error) :
  apiMethod p -> storesNothing p.
Proof.
  intros [V HV apicall getParams v|V HV zero|V HV zero groupID
          |V HV zero identifier|V HV zero identifier
          |V HV zero identifier startDateTime endDateTime|].
  all: unfold errorOf, ListUsers, ListMembersOfGroup, GetUser,
    ListUserCalendars, ListCalendarView, mbind, Prog_bind, mret, Prog_ret;
    cbv zeta.
  - apply storesNothing_then, makeGETAPICall_storesNothing.
  - apply storesNothing_then, makeGETAPICall_storesNothing.
  - apply storesNothing_then, storesNothing_then, makeGETAPICall_storesNothing.
  - apply storesNothing_then, makeGETAPICall_storesNothing.
  - apply storesNothing_then, storesNothing_then, makeGETAPICall_storesNothing.
  - apply storesNothing_then, makeGETAPICall_storesNothing.
  - apply NewGraphClient_storesNothing.
Qed.

Lemma gated_then {A B} (p : Prog A) (f : A -> B) :
  gated false 0 p -> gated false 0 (bind p (fun r => Ret (f r))).
Proof.
  intros Hp. unfold gated. apply passes_bind.
  eapply passes_impl; [|exact Hp]. intros r h d Hr. exact Hr.
Qed.

Lemma apiMethod_gated (p : Prog error) : apiMethod p -> gated false 0 p.
Proof.
  intros [V HV apicall getParams v|V HV zero|V HV zero groupID
          |V HV zero identifier|V HV zero identifier
          |V HV zero identifier startDateTime endDateTime|].
  all: unfold errorOf, ListUsers, ListMembersOfGroup, GetUser,
    ListUserCalendars, ListCalendarView, mbind, Prog_bind, mret, Prog_ret;
    cbv zeta.
  - apply gated_then, makeGETAPICall_gated.
  - apply gated_then, makeGETAPICall_gated.
  - apply gated_then, gated_then, makeGETAPICall_gated.
  - apply gated_then, makeGETAPICall_gated.
  - apply gated_then, gated_then, makeGETAPICall_gated.
  - apply gated_then, makeGETAPICall_gated.
  - apply NewGraphClient_gated.
Qed.

(** X6. Calls of the API methods, of makeGETAPICall and of NewGraphClient's
    body, made one after the other on a client whose mutex is free, all
    return, whatever the clock and the network of each call: the result holds
    one error value per call. The mutex is free again at the end, and the
    tenant ID, the application ID and the secret of the client are what they
    were: only the token can have changed. *)
Theorem calls_in_sequence (calls : list (Env * Prog error)) (w : World) :
  Forall (fun c => apiMethod (snd c)) calls ->
  apiCall w = false ->
  exists errs w',
    runAll calls w = Some (errs, w')
    /\ length errs = length calls
    /\ apiCall w' = false
    /\ forall f, getField f (client w') = getField f (client w).
Proof.
  intros Hcalls. revert w.
  induction Hcalls as [|[env p] calls Hp _ IH]; intros w Hfree.
  - exists [], w. repeat split; auto.
  - cbn [snd] in Hp. cbn [runAll].
    destruct (passes_run env p _ false 0%nat w (apiMethod_gated p Hp) Hfree)
      as (err & w1 & d & Hrun & Hfree1 & _).
    rewrite Hrun.
    destruct (IH w1 Hfree1) as (errs & w' & Hall & Hlen & Hfree' & Hid).
    rewrite Hall. exists (err :: errs), w'.
    split; [reflexivity|]. split; [cbn; now rewrite Hlen|].
    split; [exact Hfree'|]. intros f. rewrite Hid.
    eapply storesNothing_run; [apply apiMethod_storesNothing, Hp | exact Hrun].
Qed.

(** refreshToken reads the identity of the client, the clock's environment
    and nothing else: from two states of one client it returns the same error,
    leaves the same client and sends the same requests. *)
Lemma refreshToken_frame (env : Env) (w1 w2 : World) :
  client w1 = client w2 ->
  exists err g' evs evs',
    run env refreshToken w1
    = Some (err, mkWorld g' (apiCall w1) (trace w1 ++ evs))
    /\ run env refreshToken w2
       = Some (err, mkWorld g' (apiCall w2) (trace w2 ++ evs'))
    /\ requests evs' = requests evs
    /\ Forall (fun req => Method req = "POST") (requests evs)
    /\ (err <> None -> g' = client w1).
Proof.
  destruct w1 as [g b tr], w2 as [g2 b' tr']. cbn [client]. intros <-.
  unfold refreshToken, refreshToken_body, performRequest, http_NewRequest.
  run_cases; simplify_eq;
    (eexists _, _, _, _; split;
     [unfold record; cbn; rewrite <- !app_assoc; reflexivity|];
     split; [unfold record; cbn; rewrite <- !app_assoc; reflexivity|]; cbn;
     split; [reflexivity|]; split; [repeat constructor|];
     intros Herr; solve [reflexivity | congruence]).
Qed.

(** X7. When the token wants to be refreshed and the refresh fails,
    makeGETAPICall returns the error of refreshToken as it is, leaves the
    caller's value and the client untouched, releases the mutex and sends
    nothing but the token request the refresh sent: the API is not called. *)
Theorem failed_refresh_aborts {V} `{Unmarshaler V} (env : Env) (w w0 : World)
    (apicall : string) (getParams : option Values) (v : V) (msg : string) :
  apiCall w = false ->
  WantsToBeRefreshed (token (client w)) (clock env) = true ->
  run env refreshToken w = Some (Some msg, w0) ->
  exists w',
    run env (makeGETAPICall apicall getParams v) w = Some ((v, Some msg), w')
    /\ client w' = client w
    /\ apiCall w' = false
    /\ requests (trace w') = requests (trace w0)
    /\ Forall (fun req => Method req = "POST")
              (requests (drop (length (trace w)) (trace w'))).
Proof.
  intros Hfree Hstale Hrun. destruct w as [g b tr]. cbn in Hfree, Hstale.
  subst b.
  unfold makeGETAPICall. cbn -[refreshToken].
  destruct (WantsToBeRefreshed (token g) (clock env)); [|discriminate].
  rewrite run_bind_fix, run_bind.
  match goal with
  | |- context [@run ?A env refreshToken ?w1] =>
      destruct (refreshToken_frame env (mkWorld g false tr) w1 eq_refl)
        as (err & g' & evs & evs' & Hrun0 & Hrun1 & Hreqs & Hposts & Hkeep);
      change (@run A env refreshToken w1)
        with (@run error env refreshToken w1);
      rewrite Hrun1; clear Hrun1
  end.
  cbn [apiCall trace client] in Hrun0, Hkeep.
  rewrite Hrun0 in Hrun. injection Hrun as -> <-.
  rewrite Hkeep by discriminate.
  cbn. eexists. split; [reflexivity|]. unfold record. cbn.
  split; [reflexivity|]. split; [reflexivity|].
  rewrite <- !app_assoc. cbn. split.
  - unfold requests in *. rewrite !omap_app. cbn. rewrite !omap_app. cbn.
    rewrite app_nil_r. f_equal. exact Hreqs.
  - rewrite drop_app_length. unfold requests in *. cbn.
    rewrite omap_app. cbn. rewrite app_nil_r, Hreqs. exact Hposts.
Qed.

Lemma status_inside (code : Z) :
  (code <? 200) || (code >? 299) = false -> 200 <= code <= 299.
Proof. intros Hst. apply orb_false_iff in Hst. lia. Qed.

(** X8. refreshToken returns nil only after one token request, a POST, was
    answered with a status from 200 to 299 and a body that was read to its
    end and decoded without error into a zero Token; the client's token is
    then that decoded Token. The tenant ID was not empty, and the three
    identity fields are as they were. *)
Theorem refreshToken_success (env : Env) (w w' : World) :
  run env refreshToken w = Some (None, w') ->
  TenantID (client w) <> ""
  /\ exists req resp evs,
       trace w' = (trace w ++ evs)%list
       /\ requests evs = [req]
       /\ Method req = "POST"
       /\ network env req = DoResp resp
       /\ 200 <= StatusCode resp <= 299
       /\ ReadAllErr resp = None
       /\ json_Unmarshal (ReadAllBody resp) zeroToken
          = (token (client w'), None)
       /\ forall f, getField f (client w') = getField f (client w).
Proof.
  destruct w as [g b tr].
  unfold refreshToken, refreshToken_body, performRequest, http_NewRequest.
  run_cases; intros Hrun; simplify_eq.
  split; [assumption|].
  eexists _, _, _. split; [unfold record; cbn; rewrite <- !app_assoc;
                           reflexivity|].
  cbn. split; [reflexivity|]. split; [reflexivity|].
  split; [eassumption|]. split; [apply status_inside; assumption|].
  split; [assumption|]. split; [assumption|].
  intros []; reflexivity.
Qed.

(** X9. Whoever calls it and however it ends, one execution of refreshToken
    sends at most one request, and that request is the token request of the
    client: a POST to the login URL with the path of the client's tenant,
    whose body is the encoded form with the four keys [grant_type],
    [client_id], [client_secret] and [resource], one value each, and whose
    headers give the form's content type and, as the content length, the
    length of that body. *)
Theorem token_request (env : Env) (w w' : World) (err : error) :
  run env refreshToken w = Some (err, w') ->
  exists evs,
    trace w' = (trace w ++ evs)%list
    /\ (length (requests evs) <= 1)%nat
    /\ forall req, In req (requests evs) ->
       let form :=
         grantForm (ApplicationID (client w)) (ClientSecret (client w)) in
       Method req = "POST"
       /\ (exists u,
             url_ParseRequestURI LoginBaseURL = Ok u
             /\ url_Parse (URL_String
                             (set_Path ("/" +:+ TenantID (client w)
                                        +:+ "/oauth2/token") u))
                = Ok (ReqURL req))
       /\ ReqBody req = Some (Values_Encode form)
       /\ ReqHeader req !! "Content-Type"
          = Some ["application/x-www-form-urlencoded"]
       /\ ReqHeader req !! "Content-Length"
          = Some [Itoa (Z.of_nat (String.length (Values_Encode form)))]
       /\ form !! "grant_type" = Some ["client_credentials"]
       /\ form !! "client_id" = Some [ApplicationID (client w)]
       /\ form !! "client_secret" = Some [ClientSecret (client w)]
       /\ form !! "resource" = Some [BaseURL]
       /\ forall k, k <> "grant_type" -> k <> "client_id" ->
            k <> "client_secret" -> k <> "resource" -> form !! k = None.
Proof.
  destruct w as [g b tr].
  unfold refreshToken, refreshToken_body, performRequest, http_NewRequest.
  run_cases; intros Hrun; simplify_eq;
    (eexists; split; [unfold record; cbn; rewrite <- !app_assoc;
                      reflexivity|]);
    cbn; (split; [lia|]); intros req Hin;
    try contradiction; destruct Hin as [<-|[]]; cbn.
  all: split; [reflexivity|].
  all: split; [eexists; split; [reflexivity | assumption]|].
  all: split; [reflexivity|].
  all: split; [reflexivity|].
  all: split; [reflexivity|].
  all: unfold grantForm.
  all: repeat (rewrite ?Values_Add_lookup;
               rewrite ?Values_Add_lookup_ne by discriminate).
  all: rewrite ?lookup_empty; cbn.
  all: repeat (split; [reflexivity|]).
  all: intros k H1 H2 H3 H4.
  all: rewrite !Values_Add_lookup_ne by assumption.
  all: apply lookup_empty.
Qed.

(** X10. UnmarshalJSON assigns the fields one at a time, each before its
    check. A document that does not decode leaves the client as it was. A
    document that decodes overwrites the tenant ID in every case, an empty
    one included; the application ID unless the tenant ID was empty; the
    secret unless one of the two before was empty. So a document that is
    rejected for an empty field has still changed the client, while the token
    is the one it held. *)
Theorem UnmarshalJSON_partial_update (env : Env) (w : World) (data : string)
    (tmp : tmpConfig) (derr : error) :
  json_Unmarshal data (mkTmp "" "" "") = (tmp, derr) ->
  exists err w',
    run env (UnmarshalJSON data) w = Some (err, w')
    /\ (derr <> None -> err = derr /\ w' = w)
    /\ (derr = None ->
        TenantID (client w') = tmpTenantID tmp
        /\ ApplicationID (client w')
           = (if decide (tmpTenantID tmp = "") then ApplicationID (client w)
              else tmpApplicationID tmp)
        /\ ClientSecret (client w')
           = (if decide (tmpTenantID tmp = "" \/ tmpApplicationID tmp = "")
              then ClientSecret (client w) else tmpClientSecret tmp)
        /\ (tmpTenantID tmp = "" \/ tmpApplicationID tmp = ""
            \/ tmpClientSecret tmp = "" ->
            err <> None /\ token (client w') = token (client w))).
Proof.
  intros Hdec. destruct w as [g b tr]. destruct tmp as [t a c].
  unfold UnmarshalJSON. rewrite Hdec.
  destruct derr as [msg|].
  - eexists _, _. split; [reflexivity|]. split; [auto | discriminate].
  - cbn -[refreshToken].
    destruct (decide (t = "")) as [Ht|Ht].
    { eexists _, _. split; [reflexivity|]. split; [congruence|]. intros _.
      cbn. rewrite decide_True by (left; exact Ht).
      repeat split; auto; discriminate. }
    cbn -[refreshToken].
    destruct (decide (a = "")) as [Ha|Ha].
    { eexists _, _. split; [reflexivity|]. split; [congruence|]. intros _.
      cbn. rewrite decide_True by (right; exact Ha).
      repeat split; auto; discriminate. }
    cbn -[refreshToken].
    destruct (decide (c = "")) as [Hc|Hc].
    { eexists _, _. split; [reflexivity|]. split; [congruence|]. intros _.
      cbn. rewrite decide_False by tauto.
      repeat split; auto; discriminate. }
    first [rewrite run_bind | rewrite run_bind_fix].
    match goal with
    | |- context [@run ?A env refreshToken ?w0] =>
        destruct (run_refreshToken env w0)
          as (err & g' & evs & Hrun & _ & _ & _ & Hid);
        change (@run A env refreshToken w0)
          with (@run error env refreshToken w0);
        rewrite Hrun; clear Hrun
    end.
    cbn in Hid.
    pose proof (Hid fTenantID) as Hit. pose proof (Hid fApplicationID) as Hia.
    pose proof (Hid fClientSecret) as Hic. cbn in Hit, Hia, Hic.
    destruct err as [msg|]; cbn;
      (eexists _, _; split; [reflexivity|]; split; [congruence|]; intros _;
       cbn; rewrite decide_False by tauto;
       split; [exact Hit|]; split; [exact Hia|]; split; [exact Hic|];
       intros [?|[?|?]]; contradiction).
Qed.

(** X11. With a token that does not want to be refreshed, a base URL that
    parses and a request that is built, if the remote side answers the GET
    with a status from 200 to 299 and a body read to its end, makeGETAPICall
    returns exactly what [json.Unmarshal] of that body into the caller's value
    gives, value and error; the client is as it was and the mutex is free. *)
Theorem makeGETAPICall_answer {V} `{Unmarshaler V} (env : Env) (w : World)
    (apicall : string) (getParams : option Values) (v : V) (base u : URL)
    (resp : Response) :
  apiCall w = false ->
  WantsToBeRefreshed (token (client w)) (clock env) = false ->
  url_ParseRequestURI BaseURL = Ok base ->
  url_Parse (URL_String (set_Path ("/" +:+ APIVersion +:+ apicall) base))
  = Ok u ->
  (forall req, Method req = "GET" -> network env req = DoResp resp) ->
  200 <= StatusCode resp <= 299 ->
  ReadAllErr resp = None ->
  exists w',
    run env (makeGETAPICall apicall getParams v) w
    = Some (json_Unmarshal (ReadAllBody resp) v, w')
    /\ client w' = client w
    /\ apiCall w' = false
    /\ length (requests (drop (length (trace w)) (trace w'))) = 1%nat.
Proof.
  intros Hfree Hfresh Hbase Hparse Hnet Hstatus Hread.
  destruct w as [g b tr]. cbn in Hfree, Hfresh. subst b.
  unfold makeGETAPICall, performRequest, http_NewRequest.
  cbn -[refreshToken].
  destruct (WantsToBeRefreshed (token g) (clock env)); [discriminate|].
  cbn. rewrite Hbase. cbn. rewrite Hparse. cbn.
  rewrite Hnet by reflexivity. cbn.
  destruct ((StatusCode resp <? 200) || (StatusCode resp >? 299)) eqn:Hst;
    [apply orb_true_iff in Hst; lia|].
  rewrite Hread. cbn.
  eexists. split; [reflexivity|]. unfold record. cbn.
  split; [reflexivity|]. split; [reflexivity|].
  rewrite <- !app_assoc. rewrite drop_app_length. reflexivity.
Qed.

Lemma decodeMembers_no_value {V} `{Unmarshaler V}
    (ctx : option json.errorContext) (members : list (string * JSON))
    (v : marsh V) (saved : error) :
  Forall (fun kv => json.foldName (fst kv) <> json.foldName "value") members ->
  decodeMembers "" [field "value" Value (fun x _ => mkMarsh x)] ctx members v
                saved
  = (v, saved).
Proof.
  induction 1 as [|[key j] members Hkey _ IH]; [reflexivity|].
  cbn [decodeMembers fst] in *.
  assert (findField [field "value" (@Value V) (fun x _ => mkMarsh x)] key
          = None) as ->; [|exact IH].
  unfold findField. cbn [List.find field fieldKey].
  destruct (String.eqb_spec "value" key) as [<-|_]; [contradiction|].
  destruct (String.eqb_spec (json.foldName "value") (json.foldName key))
    as [Heq|_]; [|reflexivity].
  exfalso. apply Hkey. symmetry. exact Heq.
Qed.

(** X12. ListMembersOfGroup and ListUserCalendars take their result from the
    member [value] of the answer and from nothing else: when the answer, with
    a status from 200 to 299, is an object none of whose keys is [value] in
    any casing, both return the zero value they started with and no error. *)
Theorem list_without_value {V} `{Unmarshaler V} (env : Env) (w : World)
    (zero : V) (identifier : string) (resp : Response)
    (members : list (string * JSON)) (base u1 u2 : URL) :
  apiCall w = false ->
  WantsToBeRefreshed (token (client w)) (clock env) = false ->
  url_ParseRequestURI BaseURL = Ok base ->
  url_Parse (URL_String
               (set_Path ("/" +:+ APIVersion +:+ "/groups/" +:+ identifier
                          +:+ "/members") base)) = Ok u1 ->
  url_Parse (URL_String
               (set_Path ("/" +:+ APIVersion +:+ "/users/" +:+ identifier
                          +:+ "/calendars") base)) = Ok u2 ->
  (forall req, Method req = "GET" -> network env req = DoResp resp) ->
  200 <= StatusCode resp <= 299 ->
  ReadAllErr resp = None ->
  json_scan (ReadAllBody resp) = Ok (JObject members) ->
  Forall (fun kv => json.foldName (fst kv) <> json.foldName "value") members ->
  (exists w',
      run env (ListMembersOfGroup zero identifier) w = Some ((zero, None), w'))
  /\ (exists w',
        run env (ListUserCalendars zero identifier) w
        = Some ((zero, None), w')).
Proof.
  intros Hfree Hfresh Hbase Hu1 Hu2 Hnet Hstatus Hread Hscan Hkeys.
  assert (forall goType,
             @json_Unmarshal _ _ (marsh_Unmarshaler goType) (ReadAllBody resp)
               (mkMarsh zero)
             = (mkMarsh zero, None)) as Hdec.
  { intros goType. unfold json_Unmarshal. rewrite Hscan.
    apply (decodeMembers_no_value None members (mkMarsh zero) None Hkeys). }
  split.
  - unfold ListMembersOfGroup. cbv zeta. rewrite run_bind.
    destruct (@makeGETAPICall_answer _
                (marsh_Unmarshaler (marshType "Users" "msgraph.Users")) env w
                ("/groups/" +:+ identifier +:+ "/members") None (mkMarsh zero)
                base u1 resp Hfree Hfresh Hbase Hu1 Hnet Hstatus Hread)
      as (w' & Hrun & _).
    rewrite Hrun, Hdec. eexists. reflexivity.
  - unfold ListUserCalendars. cbv zeta. rewrite run_bind.
    destruct (@makeGETAPICall_answer _
                (marsh_Unmarshaler (marshType "Calendars" "msgraph.Calendars"))
                env w
                ("/users/" +:+ identifier +:+ "/calendars") None (mkMarsh zero)
                base u2 resp Hfree Hfresh Hbase Hu2 Hnet Hstatus Hread)
      as (w' & Hrun & _).
    rewrite Hrun, Hdec. eexists. reflexivity.
Qed.

(** What the layout of ListCalendarView prints of a time: the scan of the
    layout finds the long year, the month and the day with their two
    hyphens, and no element in [T00:00:00]. *)
Lemma Format_date_layout (t : Time) :
  time.Format t "2006-01-02T00:00:00"
  = time.appendInt (Year t) 4 +:+ "-" +:+ time.appendInt (Month t) 2 +:+ "-"
    +:+ time.appendInt (Day t) 2 +:+ "T00:00:00".
Proof. reflexivity. Qed.

(** X13. ListCalendarView sends the two times as [startdatetime] and
    [enddatetime], each printed as its date followed by [T00:00:00]: the
    time of day is dropped. Two calls whose start times fall on one day and
    whose end times fall on one day are the same call. *)
Theorem ListCalendarView_dates_only {V} `{Unmarshaler V} (zero : V)
    (identifier : string) (start1 end1 start2 end2 : Time) :
  sameDate start1 start2 -> sameDate end1 end2 ->
  ListCalendarView zero identifier start1 end1
  = ListCalendarView zero identifier start2 end2
  /\ exists params day1 day2,
       ListCalendarView zero identifier start1 end1
       = makeGETAPICall
           ("/users/" +:+ identifier +:+ "/calendar/calendarview")
           (Some params) zero
       /\ params !! "startdatetime" = Some [day1 +:+ "T00:00:00"]
       /\ params !! "enddatetime" = Some [day2 +:+ "T00:00:00"]
       /\ day1 = time.appendInt (Year start2) 4 +:+ "-"
                 +:+ time.appendInt (Month start2) 2 +:+ "-"
                 +:+ time.appendInt (Day start2) 2
       /\ day2 = time.appendInt (Year end2) 4 +:+ "-"
                 +:+ time.appendInt (Month end2) 2 +:+ "-"
                 +:+ time.appendInt (Day end2) 2.
Proof.
  intros (Hy1 & Hm1 & Hd1) (Hy2 & Hm2 & Hd2).
  unfold ListCalendarView. rewrite !Format_date_layout.
  rewrite Hy1, Hm1, Hd1, Hy2, Hm2, Hd2. split; [reflexivity|].
  eexists _, _, _. split; [reflexivity|].
  rewrite Values_Add_lookup_ne by discriminate.
  rewrite !Values_Add_lookup, lookup_empty.
  rewrite Values_Add_lookup_ne by discriminate. rewrite lookup_empty. cbn.
  rewrite <- !append_assoc.
  repeat split; reflexivity.
Qed.

Lemma append_nil_r (s : string) : s +:+ "" = s.
Proof.
  induction s as [|c r IH]; [reflexivity|].
  change (String c (r +:+ "") = String c r). now rewrite IH.
Qed.

Lemma contains_end (pre sub : string) : contains sub (pre +:+ sub).
Proof. exists pre, "". now rewrite append_nil_r. Qed.

(** X17. NewGraphClient always returns, with the mutex of the new client
    free and the three identity fields as given. With an error the client's
    token is the zero Token. Without one, exactly one request was sent, it was
    answered with a body that decodes without error, and the client's token is
    the decoded Token. *)
Theorem NewGraphClient_result (env : Env)
    (tenantID applicationID clientSecret : string) :
  exists err w',
    run_NewGraphClient env tenantID applicationID clientSecret
    = Some (err, w')
    /\ TenantID (client w') = tenantID
    /\ ApplicationID (client w') = applicationID
    /\ ClientSecret (client w') = clientSecret
    /\ apiCall w' = false
    /\ (err <> None -> token (client w') = zeroToken)
    /\ (err = None ->
        exists req resp,
          requests (trace w') = [req]
          /\ network env req = DoResp resp
          /\ json_Unmarshal (ReadAllBody resp) zeroToken
             = (token (client w'), None)).
Proof.
  unfold run_NewGraphClient, NewGraphClient, idle, NewGraphClient_literal,
    refreshToken, refreshToken_body, performRequest, http_NewRequest.
  run_cases;
    (eexists _, _; split; [reflexivity|]); cbn;
    (do 4 (split; [reflexivity|])); (split; [intros Herr | intros Hnil]);
    try reflexivity; try discriminate; try contradiction.
  eexists _, _. split; [reflexivity|]. split; eassumption.
Qed.

(** X18. When [httpClient.Do] fails, performRequest returns an error that
    names the cause and the URL of the request, and leaves the caller's value
    untouched: nothing is read or decoded. *)
Theorem performRequest_transport_error {V} `{Unmarshaler V} (env : Env)
    (req : Request) (v : V) (cause : string) (w : World) :
  network env req = DoErr cause ->
  exists msg,
    run env (performRequest req v) w
    = Some ((v, Some msg), record (Do req) w)
    /\ contains cause msg
    /\ contains (URL_String (ReqURL req)) msg.
Proof.
  intros Hnet. unfold performRequest. cbn. rewrite Hnet.
  eexists. split; [reflexivity|]. split.
  - apply contains_after, contains_here.
  - do 2 apply contains_after. apply contains_end.
Qed.

(** X19. When the base URL does not parse, a call of makeGETAPICall with a
    token that does not want to be refreshed returns an error that names the
    base URL and the cause, sends no request, leaves the caller's value and
    the client untouched and releases the mutex. *)
Theorem unparsable_base_url {V} `{Unmarshaler V} (env : Env) (w : World)
    (apicall : string) (getParams : option Values) (v : V) (cause : string) :
  apiCall w = false ->
  WantsToBeRefreshed (token (client w)) (clock env) = false ->
  url_ParseRequestURI BaseURL = Err cause ->
  exists msg w',
    run env (makeGETAPICall apicall getParams v) w = Some ((v, Some msg), w')
    /\ contains BaseURL msg
    /\ contains cause msg
    /\ requests (trace w') = requests (trace w)
    /\ client w' = client w
    /\ apiCall w' = false.
Proof.
  intros Hfree Hfresh Hbase. destruct w as [g b tr]. cbn in Hfree, Hfresh.
  subst b.
  unfold makeGETAPICall. cbn -[refreshToken].
  destruct (WantsToBeRefreshed (token g) (clock env)); [discriminate|].
  cbn. rewrite Hbase. cbn.
  eexists _, _. split; [reflexivity|]. unfold record. cbn.
  split; [apply contains_after, contains_here|].
  split.
  - do 2 apply contains_after. apply contains_end.
  - split; [|split; reflexivity].
    unfold requests. rewrite !omap_app. cbn. rewrite !app_nil_r. reflexivity.
Qed.

End ClientCalls.

(** * The mutex and the client's state *)

Section Guarded.
Context `{Platform}.

Lemma cstep_underMutex (env : Env) (i : nat) (c c' : World * Pool) :
  disciplined c -> cstep env i c = Some c' ->
  exists ev, trace (fst c') = (trace (fst c) ++ [ev])%list /\ underMutex ev.
Proof.
  destruct c as [w pool]. unfold cstep. cbn [fst snd]. intros Hd Hstep.
  destruct (pool !! i) as [[a|X e k]|] eqn:Hi; try discriminate.
  destruct (perform env e w) as [[x w']|] eqn:Hperf; [|discriminate].
  injection Hstep as <-. cbn [fst].
  exists (apiCall w, eventOf e). split; [eapply perform_trace, Hperf|].
  unfold disciplined in Hd. destruct (apiCall w) eqn:Hheld.
  - destruct e; cbn in Hperf |- *; rewrite ?Hheld in Hperf;
      try discriminate; reflexivity.
  - destruct Hd as [_ Hall].
    pose proof (proj1 (Forall_lookup _ _) Hall i _ Hi) as Hgi.
    unfold gated in Hgi. cbn [passes] in Hgi.
    destruct e; cbn in Hgi; try contradiction. reflexivity.
Qed.

Lemma schedule_underMutex (env : Env) (sched : list nat) :
  forall c c',
    disciplined c -> Forall underMutex (trace (fst c)) ->
    schedule env sched c = Some c' ->
    Forall underMutex (trace (fst c')).
Proof.
  induction sched as [|i sched IH]; intros c c' Hd Hall Hs; cbn in Hs.
  - injection Hs as <-. exact Hall.
  - destruct (cstep env i c) as [c1|] eqn:Hstep; [|discriminate].
    destruct (cstep_underMutex env i c c1 Hd Hstep) as (ev & Htr & Hev).
    apply (IH c1 c'); [eapply cstep_disciplined; eassumption | | exact Hs].
    rewrite Htr. apply Forall_app. split; [exact Hall|].
    constructor; [exact Hev | constructor].
Qed.

Lemma underMutex_guarded (tr : list (bool * Event)) :
  Forall underMutex tr -> existsb unguarded tr = false.
Proof.
  induction 1 as [|[b e] tr Hev _ IH]; [reflexivity|].
  cbn [existsb]. rewrite IH, orb_false_r.
  unfold underMutex in Hev. unfold unguarded. cbn [fst snd] in *.
  destruct e; cbn; try reflexivity; rewrite Hev; reflexivity.
Qed.


End Guarded.

(** * The round trip of any mail *)

Section AnyRoundTrip.

Lemma string_coerced (ctx : option json.errorContext) (s s0 : string) :
  fromJSON ctx (toJSON s) s0 = (json.coerce s, None).
Proof. reflexivity. Qed.

Lemma EmailAddress_coerced (ctx : option json.errorContext) (e e0 : EmailAddress) :
  fromJSON ctx (toJSON e) e0 = (coerceEmailAddress e, None).
Proof. destruct e as [n a]. reflexivity. Qed.

Lemma Recipient_coerced (ctx : option json.errorContext) (r r0 : Recipient) :
  fromJSON ctx (toJSON r) r0 = (coerceRecipient r, None).
Proof.
  destruct r as [e].
  unfold fromJSON, Recipient_Unmarshaler, toJSON, Recipient_Marshaler.
  cbn -[fromJSON toJSON]. rewrite EmailAddress_coerced. reflexivity.
Qed.

Lemma MsgBody_coerced (ctx : option json.errorContext) (b b0 : MsgBody) :
  fromJSON ctx (toJSON b) b0 = (coerceMsgBody b, None).
Proof. destruct b as [t c]. reflexivity. Qed.

Lemma Attachment_coerced (ctx : option json.errorContext) (a a0 : Attachment) :
  fromJSON ctx (toJSON a) a0 = (coerceAttachment a, None).
Proof. destruct a as [d n t b]. reflexivity. Qed.

Lemma decodeElems_mapped {V} `{Marshaler V} `{Unmarshaler V} (f : V -> V)
    (zero : V) (ctx : option json.errorContext) :
  (forall x x0, fromJSON ctx (toJSON x) x0 = (f x, None)) ->
  forall l old,
    decodeElems zero ctx (List.map toJSON l) old None = (List.map f l, None).
Proof.
  intros Hrt l. induction l as [|x l IH]; intros old; [reflexivity|].
  cbn [List.map decodeElems]. rewrite Hrt. cbn [json.saveError].
  rewrite IH. reflexivity.
Qed.

Lemma slice_mapped {V} `{Marshaler V} `{Unmarshaler V} (f : V -> V)
    (goType : string) (zero : V) (ctx : option json.errorContext)
    (s s0 : slice V) :
  (forall x x0, fromJSON ctx (toJSON x) x0 = (f x, None)) ->
  decodeSlice goType zero ctx (encodeSlice s) s0 = (mapSlice f s, None).
Proof.
  intros Hrt. destruct s as [|l]; [reflexivity|].
  cbn [encodeSlice decodeSlice mapSlice].
  rewrite (decodeElems_mapped f zero ctx Hrt). reflexivity.
Qed.

(** X20. Marshalling any mail and unmarshalling the result into a fresh mail
    never fails, and gives the mail with every string as the encoder wrote
    it: bytes that are not well-formed UTF-8 replaced by the replacement
    character, everything else as it was. The lists keep their length and
    their order, a nil list comes back nil and an empty one empty. *)
Theorem roundTrip_any_mail (m : Mail) :
  let g := message (fst (roundTrip m)) in
  roundTrip m = (coerceMail m, None)
  /\ length (elems (ToRecipients g)) = length (elems (ToRecipients (message m)))
  /\ length (elems (CcRecipients g)) = length (elems (CcRecipients (message m)))
  /\ length (elems (BccRecipients g))
     = length (elems (BccRecipients (message m)))
  /\ length (elems (Attachments g)) = length (elems (Attachments (message m)))
  /\ (ToRecipients g = SliceNil <-> ToRecipients (message m) = SliceNil).
Proof.
  assert (roundTrip m = (coerceMail m, None)) as Hrt.
  { destruct m as [[subj body to cc bcc from att]].
    unfold roundTrip, fromJSON, Mail_Unmarshaler, toJSON, Mail_Marshaler.
    cbn -[fromJSON toJSON].
    unfold fromJSON at 1, Message_Unmarshaler, toJSON at 1, Message_Marshaler.
    cbn -[fromJSON toJSON].
    rewrite string_coerced, MsgBody_coerced.
    unfold fromJSON at 1, Recipients_Unmarshaler, toJSON at 1,
      Recipients_Marshaler.
    rewrite (slice_mapped coerceRecipient) by apply Recipient_coerced.
    cbn -[fromJSON toJSON].
    unfold fromJSON at 1, Recipients_Unmarshaler, toJSON at 1,
      Recipients_Marshaler.
    rewrite (slice_mapped coerceRecipient) by apply Recipient_coerced.
    cbn -[fromJSON toJSON].
    unfold fromJSON at 1, Recipients_Unmarshaler, toJSON at 1,
      Recipients_Marshaler.
    rewrite (slice_mapped coerceRecipient) by apply Recipient_coerced.
    cbn -[fromJSON toJSON].
    rewrite Recipient_coerced.
    cbn -[fromJSON toJSON].
    unfold fromJSON at 1, Attachments_Unmarshaler, toJSON at 1,
      Attachments_Marshaler.
    rewrite (slice_mapped coerceAttachment) by apply Attachment_coerced.
    reflexivity. }
  cbv zeta. split; [exact Hrt|]. rewrite Hrt.
  destruct m as [[subj body to cc bcc from att]]. cbn.
  destruct to, cc, bcc, att; cbn; rewrite ?length_map;
    repeat split; auto; discriminate.
Qed.

End AnyRoundTrip.

(** * Attachments *)

Section Attachments.

Lemma byte_range (c : ascii) : 0 <= Base64.byte c < 256.
Proof. unfold Base64.byte. pose proof (N_ascii_bounded c). lia. Qed.

Lemma byte_inj (c d : ascii) : Base64.byte c = Base64.byte d -> c = d.
Proof.
  unfold Base64.byte. intros Heq. apply N2Z.inj in Heq.
  rewrite <- (ascii_N_embedding c), <- (ascii_N_embedding d). now rewrite Heq.
Qed.

(** The decoding table inverts the encoding table. *)
Lemma decodeMap_encode (v : Z) :
  0 <= v < 64 -> decodeMap (Base64.encode v) = v.
Proof.
  intros Hv. rewrite <- (Z2Nat.id v) by lia.
  assert (Z.to_nat v < 64)%nat as Hn by lia.
  generalize dependent (Z.to_nat v). clear. intros n Hn.
  do 64 (destruct n as [|n]; [reflexivity|]). lia.
Qed.

Lemma land63 (a : Z) : Z.land a 63 = a mod 64.
Proof. change 63 with (Z.ones 6). now rewrite Z.land_ones by lia. Qed.

Lemma sextet_range (a : Z) : 0 <= Z.land a 63 < 64.
Proof. rewrite land63. apply Z.mod_pos_bound. lia. Qed.

Lemma encode_sextet_inj (a b : Z) :
  Base64.encode (Z.land a 63) = Base64.encode (Z.land b 63) ->
  a mod 64 = b mod 64.
Proof.
  intros Heq. apply (f_equal decodeMap) in Heq.
  rewrite !decodeMap_encode in Heq by apply sextet_range.
  now rewrite !land63 in Heq.
Qed.

Lemma encode_sextet_pad (a : Z) :
  Base64.encode (Z.land a 63) <> Base64.padChar.
Proof.
  intros Heq. apply (f_equal decodeMap) in Heq.
  rewrite decodeMap_encode in Heq by apply sextet_range.
  change (decodeMap Base64.padChar) with 255 in Heq.
  pose proof (sextet_range a). lia.
Qed.

(** Where the bits of [b] lie below those of [a] shifted, or is plus. *)
Lemma lor_shiftl (a b n : Z) :
  0 <= n -> 0 <= b < 2 ^ n -> Z.lor (Z.shiftl a n) b = a * 2 ^ n + b.
Proof.
  intros Hn Hb. rewrite <- Z.shiftl_mul_pow2 by lia.
  symmetry. apply Z.add_nocarry_lor.
  apply Z.bits_inj'. intros i Hi.
  rewrite Z.land_spec, Z.bits_0.
  destruct (Z.lt_ge_cases i n) as [Hlt|Hge].
  - rewrite Z.shiftl_spec_low by lia. reflexivity.
  - destruct (Z.eq_dec b 0) as [->|Hnz].
    + rewrite Z.bits_0. apply andb_false_r.
    + rewrite (Z.bits_above_log2 b i); [apply andb_false_r | lia |].
      apply Z.log2_lt_pow2; [lia|].
      pose proof (Z.pow_le_mono_r 2 n i ltac:(lia) Hge). lia.
Qed.

Lemma group_sum (b0 b1 b2 : Z) :
  0 <= b1 < 256 -> 0 <= b2 < 256 ->
  Z.lor (Z.lor (Z.shiftl b0 16) (Z.shiftl b1 8)) b2
  = b0 * 65536 + b1 * 256 + b2.
Proof.
  intros H1 H2.
  replace (Z.shiftl b0 16) with (Z.shiftl (Z.shiftl b0 8) 8)
    by (rewrite Z.shiftl_shiftl by lia; reflexivity).
  rewrite <- Z.shiftl_lor.
  rewrite (lor_shiftl b0 b1 8) by (cbn; lia).
  rewrite lor_shiftl by (cbn; lia). cbn. lia.
Qed.

Lemma pair_sum (b0 b1 : Z) :
  0 <= b1 < 256 ->
  Z.lor (Z.shiftl b0 16) (Z.shiftl b1 8) = b0 * 65536 + b1 * 256.
Proof.
  intros H1. rewrite <- (Z.lor_0_r (Z.lor _ _)).
  rewrite group_sum by lia. lia.
Qed.

Ltac sextets :=
  try match goal with
      | H : Base64.padChar = Base64.encode _ |- _ =>
          symmetry in H; apply encode_sextet_pad in H; contradiction
      | H : Base64.encode _ = Base64.padChar |- _ =>
          apply encode_sextet_pad in H; contradiction
      end;
  repeat match goal with
         | H : Base64.encode _ = Base64.encode _ |- _ =>
             apply encode_sextet_inj in H
         | c : ascii |- _ =>
             lazymatch goal with
             | _ : 0 <= Base64.byte c < 256 |- _ => fail
             | _ => pose proof (byte_range c)
             end
         end.

(** Two sources with one encoding are one source. *)
Lemma Encode_inj (n : nat) :
  forall src src', (length src <= n)%nat ->
    Base64.Encode src = Base64.Encode src' -> src = src'.
Proof.
  induction n as [|n IH]; intros src src' Hlen Heq.
  - destruct src; [|simpl in Hlen; lia].
    destruct src' as [|? [|? [|? ?]]]; [reflexivity|discriminate..].
  - destruct src as [|s0 [|s1 [|s2 rest]]];
      destruct src' as [|t0 [|t1 [|t2 rest']]];
      cbn [Base64.Encode] in Heq; cbv zeta in Heq;
      try reflexivity; try discriminate;
      injection Heq; clear Heq; intros; sextets.
    + rewrite !Z.shiftl_mul_pow2, !Z.shiftr_div_pow2 in * by lia.
      change (2 ^ 16) with 65536 in *. change (2 ^ 18) with 262144 in *.
      change (2 ^ 12) with 4096 in *.
      f_equal. apply byte_inj. Z.div_mod_to_equations. lia.
    + rewrite !pair_sum in * by assumption.
      rewrite !Z.shiftr_div_pow2 in * by lia.
      change (2 ^ 6) with 64 in *. change (2 ^ 18) with 262144 in *.
      change (2 ^ 12) with 4096 in *.
      assert (Base64.byte s0 = Base64.byte t0
              /\ Base64.byte s1 = Base64.byte t1)
        as [E0 E1] by (Z.div_mod_to_equations; lia).
      apply byte_inj in E0, E1. now subst.
    + rewrite !group_sum in * by assumption.
      rewrite !Z.shiftr_div_pow2 in * by lia.
      change (2 ^ 6) with 64 in *. change (2 ^ 18) with 262144 in *.
      change (2 ^ 12) with 4096 in *.
      assert (Base64.byte s0 = Base64.byte t0
              /\ Base64.byte s1 = Base64.byte t1
              /\ Base64.byte s2 = Base64.byte t2)
        as (E0 & E1 & E2) by (Z.div_mod_to_equations; lia).
      apply byte_inj in E0, E1, E2. subst.
      f_equal. f_equal. f_equal. apply IH; [simpl in Hlen; lia | assumption].
Qed.

Lemma EncodeToString_inj (s s' : string) :
  Base64.EncodeToString s = Base64.EncodeToString s' -> s = s'.
Proof.
  unfold Base64.EncodeToString. intros Heq.
  apply (f_equal list_ascii_of_string) in Heq.
  rewrite !list_ascii_of_string_of_list_ascii in Heq.
  apply (Encode_inj _ _ _ (Nat.le_refl _)) in Heq.
  apply (f_equal string_of_list_ascii) in Heq.
  now rewrite !string_of_list_ascii_of_string in Heq.
Qed.

Lemma Encode_alphabet (n : nat) :
  forall src, (length src <= n)%nat ->
    Forall (fun c => 0 <= decodeMap c < 64 \/ c = Base64.padChar)
           (Base64.Encode src).
Proof.
  assert (forall a, 0 <= decodeMap (Base64.encode (Z.land a 63)) < 64
                    \/ Base64.encode (Z.land a 63) = Base64.padChar) as Henc.
  { intros a. left. rewrite decodeMap_encode by apply sextet_range.
    apply sextet_range. }
  induction n as [|n IH]; intros src Hlen.
  - destruct src; [constructor | simpl in Hlen; lia].
  - destruct src as [|s0 [|s1 [|s2 rest]]]; cbn [Base64.Encode]; cbv zeta.
    + constructor.
    + do 2 (apply List.Forall_cons; [apply Henc|]).
      do 2 (apply List.Forall_cons; [right; reflexivity|]). constructor.
    + do 3 (apply List.Forall_cons; [apply Henc|]).
      apply List.Forall_cons; [right; reflexivity|]. constructor.
    + do 4 (apply List.Forall_cons; [apply Henc|]).
      apply IH. simpl in Hlen. lia.
Qed.

(** X14. AddFileAttachment adds one attachment at the end of the list, of the
    file attachment type, with the name and the content type given. Its
    content is text of the base64 alphabet and the padding byte only, four
    bytes for every three of the file rounded up: the file may hold any
    bytes. *)
Theorem AddFileAttachment_content (attachmentName contentType content : string)
    (m : Mail) :
  exists att,
    elems (Attachments
             (message (AddFileAttachment attachmentName contentType content m)))
    = (elems (Attachments (message m)) ++ [att])%list
    /\ DataType att = "#microsoft.graph.fileAttachment"
    /\ AttName att = attachmentName
    /\ AttContentType att = contentType
    /\ String.length (ContentBytes att)
       = (4 * ((String.length content + 2) / 3))%nat
    /\ Forall (fun c => 0 <= decodeMap c < 64 \/ c = Base64.padChar)
              (list_ascii_of_string (ContentBytes att)).
Proof.
  eexists. split; [reflexivity|]. cbn [DataType AttName AttContentType
                                       ContentBytes].
  repeat split.
  - unfold Base64.EncodeToString.
    rewrite string_of_list_ascii_length.
    rewrite (Encode_length _ _ (Nat.le_refl _)).
    now rewrite list_ascii_of_string_length.
  - unfold Base64.EncodeToString.
    rewrite list_ascii_of_string_of_list_ascii.
    apply (Encode_alphabet _ _ (Nat.le_refl _)).
Qed.

(** X15. AddFileAttachment loses nothing of the file: two calls on one mail
    that give the same mail were given the same name, the same content type
    and the same content, byte for byte. *)
Theorem AddFileAttachment_injective (name1 type1 content1 : string)
    (name2 type2 content2 : string) (m : Mail) :
  AddFileAttachment name1 type1 content1 m
  = AddFileAttachment name2 type2 content2 m ->
  name1 = name2 /\ type1 = type2 /\ content1 = content2.
Proof.
  unfold AddFileAttachment, append, set_Attachments. intros Heq.
  injection Heq as Heq. apply app_inv_head in Heq.
  injection Heq as -> -> Hc. apply EncodeToString_inj in Hc.
  repeat split. exact Hc.
Qed.

End Attachments.

(** * The added theorems at work on the small platform *)

Lemma AddFileAttachment_injective_witness :
  "f.csv" = "f.csv" /\ "text/plain" = "text/plain"
  /\ exampleContent = exampleContent.
Proof.
  apply (AddFileAttachment_injective "f.csv" "text/plain" exampleContent
           "f.csv" "text/plain" exampleContent MakeMail).
  reflexivity.
Defined.

Lemma calls_in_sequence_witness :
  exists errs w',
    runAll [(Toy.env 495,
             errorOf (@ListUsers Toy.platform _ _ (mkTmp "" "" "")));
            (Toy.env 600, @NewGraphClient Toy.platform)]
           (idle Toy.aClient) = Some (errs, w')
    /\ length errs = 2%nat
    /\ apiCall w' = false
    /\ forall f, getField f (client w') = getField f Toy.aClient.
Proof.
  apply (@calls_in_sequence Toy.platform
           [(Toy.env 495,
             errorOf (@ListUsers Toy.platform _ _ (mkTmp "" "" "")));
            (Toy.env 600, @NewGraphClient Toy.platform)]
           (idle Toy.aClient)).
  - constructor; [apply api_ListUsers|].
    constructor; [apply api_New|]. constructor.
  - reflexivity.
Defined.

Lemma failed_refresh_aborts_witness :
  exists msg w',
    run (mkEnv 495 Toy.failing)
        (@makeGETAPICall Toy.platform _ _ "/users" None (mkTmp "" "" ""))
        (idle Toy.aClient) = Some ((mkTmp "" "" "", Some msg), w')
    /\ client w' = Toy.aClient
    /\ apiCall w' = false.
Proof.
  destruct (run (mkEnv 495 Toy.failing) (@refreshToken Toy.platform)
                (idle Toy.aClient)) as [[[msg|] w0]|] eqn:Hrun.
  - destruct (@failed_refresh_aborts Toy.platform _ _ (mkEnv 495 Toy.failing)
                (idle Toy.aClient) w0 "/users" None (mkTmp "" "" "") msg
                eq_refl eq_refl Hrun) as (w' & Hcall & Hclient & Hfree & _).
    exists msg, w'. split; [exact Hcall|]. split; assumption.
  - vm_compute in Hrun. discriminate.
  - vm_compute in Hrun. discriminate.
Defined.

Lemma refreshToken_success_witness :
  exists w',
    run (Toy.env 0) (@refreshToken Toy.platform) (idle Toy.aClient)
    = Some (None, w')
    /\ exists req resp evs,
         trace w' = evs
         /\ requests evs = [req]
         /\ Method req = "POST"
         /\ Toy.granting req = DoResp resp
         /\ 200 <= StatusCode resp <= 299
         /\ ReadAllErr resp = None
         /\ @json_Unmarshal Toy.platform _ (@Token_Unmarshaler Toy.platform)
              (ReadAllBody resp) zeroToken
            = (token (client w'), None)
         /\ forall f, getField f (client w') = getField f Toy.aClient.
Proof.
  eexists. split; [vm_compute; reflexivity|].
  eapply (@refreshToken_success Toy.platform (Toy.env 0) (idle Toy.aClient)).
  vm_compute. reflexivity.
Defined.

Lemma token_request_witness :
  exists err w' evs,
    run (Toy.env 0) (@refreshToken Toy.platform) (idle Toy.aClient)
    = Some (err, w')
    /\ trace w' = evs
    /\ (length (requests evs) <= 1)%nat
    /\ forall req, In req (requests evs) ->
         Method req = "POST"
         /\ ReqHeader req !! "Content-Length"
            = Some [Itoa (Z.of_nat
                            (String.length
                               (Values_Encode
                                  (@grantForm Toy.platform "app" "secret"))))].
Proof.
  eexists _, _. 
  destruct (@token_request Toy.platform (Toy.env 0) (idle Toy.aClient) _ _
              ltac:(vm_compute; reflexivity))
    as (evs & Htrace & Hone & Hreq).
  exists evs. split; [vm_compute; reflexivity|]. split; [exact Htrace|].
  split; [exact Hone|]. intros req Hin.
  destruct (Hreq req Hin) as (Hmethod & _ & _ & _ & Hlen & _).
  split; [exact Hmethod | exact Hlen].
Defined.

Lemma UnmarshalJSON_partial_update_witness :
  exists err w',
    run (Toy.env 0) (@UnmarshalJSON Toy.platform Toy.emptyDocument)
        (idle Toy.aClient) = Some (err, w')
    /\ TenantID (client w') = ""
    /\ ApplicationID (client w') = "app"
    /\ ClientSecret (client w') = "secret"
    /\ err <> None
    /\ token (client w') = mkToken "Bearer old" 500.
Proof.
  destruct (@UnmarshalJSON_partial_update Toy.platform (Toy.env 0)
              (idle Toy.aClient) Toy.emptyDocument (mkTmp "" "" "") None
              eq_refl) as (err & w' & Hrun & _ & Hdecoded).
  destruct (Hdecoded eq_refl) as (Ht & Ha & Hc & Hrejected).
  destruct (Hrejected (or_introl eq_refl)) as [Herr Htoken].
  exists err, w'. split; [exact Hrun|]. split; [exact Ht|].
  split; [exact Ha|]. split; [exact Hc|]. split; [exact Herr | exact Htoken].
Defined.

Lemma makeGETAPICall_answer_witness :
  exists w',
    run (Toy.env 100)
        (@makeGETAPICall Toy.platform _ _ "/users" None (mkTmp "a" "b" "c"))
        (idle Toy.aClient)
    = Some (@json_Unmarshal Toy.platform _ _ Toy.emptyDocument
              (mkTmp "a" "b" "c"), w')
    /\ client w' = Toy.aClient
    /\ apiCall w' = false.
Proof.
  destruct (@makeGETAPICall_answer Toy.platform _ _ (Toy.env 100)
              (idle Toy.aClient) "/users" None (mkTmp "a" "b" "c")
              (mkURL "https" "graph.microsoft.com" "" "")
              (mkURL "https" "graph.microsoft.com" "/v1.0/users" "")
              (mkResponse 200 Toy.emptyDocument None))
    as (w' & Hrun & Hclient & Hfree & _).
  - reflexivity.
  - reflexivity.
  - reflexivity.
  - reflexivity.
  - intros req Hget. cbn. unfold Toy.granting. rewrite Hget. reflexivity.
  - cbn. lia.
  - reflexivity.
  - exists w'. split; [exact Hrun|]. split; assumption.
Defined.

Lemma list_without_value_witness :
  (exists w',
      run (mkEnv 100 (fun _ => DoResp (mkResponse 200 Toy.tokenDocument None)))
          (@ListMembersOfGroup Toy.platform _ _ (mkTmp "" "" "") "g1")
          (idle Toy.aClient) = Some ((mkTmp "" "" "", None), w'))
  /\ (exists w',
        run (mkEnv 100
               (fun _ => DoResp (mkResponse 200 Toy.tokenDocument None)))
            (@ListUserCalendars Toy.platform _ _ (mkTmp "" "" "") "g1")
            (idle Toy.aClient) = Some ((mkTmp "" "" "", None), w')).
Proof.
  apply (@list_without_value Toy.platform _ _
           (mkEnv 100 (fun _ => DoResp (mkResponse 200 Toy.tokenDocument None)))
           (idle Toy.aClient) (mkTmp "" "" "") "g1"
           (mkResponse 200 Toy.tokenDocument None)
           [("access_token", JString "Bearer abc");
            ("expires_on", JNumber "1000")]
           (mkURL "https" "graph.microsoft.com" "" "")
           (mkURL "https" "graph.microsoft.com" "/v1.0/groups/g1/members" "")
           (mkURL "https" "graph.microsoft.com" "/v1.0/users/g1/calendars" "")).
  - reflexivity.
  - reflexivity.
  - reflexivity.
  - reflexivity.
  - reflexivity.
  - intros req _. reflexivity.
  - cbn. lia.
  - reflexivity.
  - reflexivity.
  - constructor; [vm_compute; discriminate|].
    constructor; [vm_compute; discriminate|]. constructor.
Defined.

Lemma ListCalendarView_dates_only_witness :
  @ListCalendarView Toy.platform _ _ (mkTmp "" "" "") "u1"
    (clockAt 9 30 0 dayOne) (clockAt 18 0 0 dayTwo)
  = @ListCalendarView Toy.platform _ _ (mkTmp "" "" "") "u1"
      (clockAt 0 0 0 dayOne) (clockAt 23 59 59 dayTwo).
Proof.
  apply (@ListCalendarView_dates_only Toy.platform _ _ (mkTmp "" "" "") "u1"
           (clockAt 9 30 0 dayOne) (clockAt 18 0 0 dayTwo)
           (clockAt 0 0 0 dayOne) (clockAt 23 59 59 dayTwo)).
  - repeat split; reflexivity.
  - repeat split; reflexivity.
Defined.


Lemma performRequest_transport_error_witness :
  exists msg,
    run unreachable
        (@performRequest Toy.platform _ _ aRequest (mkTmp "a" "b" "c"))
        (idle Toy.aClient)
    = Some ((mkTmp "a" "b" "c", Some msg),
            record (Do aRequest) (idle Toy.aClient))
    /\ contains "dial tcp: i/o timeout" msg
    /\ contains "https://graph.microsoft.com/v1.0/users" msg.
Proof.
  apply (@performRequest_transport_error Toy.platform _ _ unreachable aRequest
           (mkTmp "a" "b" "c") "dial tcp: i/o timeout" (idle Toy.aClient)).
  reflexivity.
Defined.

Lemma unparsable_base_url_witness :
  exists msg w',
    run (Toy.env 100)
        (@makeGETAPICall schemeless _ _ "/users" None (mkTmp "a" "b" "c"))
        (idle Toy.aClient) = Some ((mkTmp "a" "b" "c", Some msg), w')
    /\ contains "graph.microsoft.com" msg
    /\ contains "missing protocol scheme" msg
    /\ requests (trace w') = []
    /\ client w' = Toy.aClient
    /\ apiCall w' = false.
Proof.
  apply (@unparsable_base_url schemeless _ _ (Toy.env 100) (idle Toy.aClient)
           "/users" None (mkTmp "a" "b" "c") "missing protocol scheme").
  - reflexivity.
  - reflexivity.
  - reflexivity.
Defined.
